(** * go-gpiosim: the configuration lifecycle and the line-attribute protocol

    A shallow embedding of [sim.go], [chip.go], [bank.go], [options.go] and
    [sysfs.go] of github.com/warthog618/go-gpiosim.

    - Go strings are byte sequences: [string] (a list of 8-bit [ascii]).
    - Go [int] values are [Z].
    - Go [error] is [option Err]; [None] is [nil].
    - Every call that leaves the process (the [os] and [os/exec] packages,
      the process-wide counter) is a constructor of [Call]; a Go function
      that performs such calls is a [Prog], a tree of calls, and [run]
      executes it against an operating system [OS], threading its state and
      recording the calls made with their answers. *)

From Stdlib Require Import ZArith NArith String Ascii List Bool Lia.
From stdpp Require Import base option list strings gmap.

Local Open Scope string_scope.
Local Open Scope Z_scope.

(** ** The parts of Go's standard library the package uses *)

(** *** package strings *)
Module strings.

Definition byte_is (n : N) (c : ascii) : bool := N.eqb (N_of_ascii c) n.

Definition byte_in (lo hi : N) (c : ascii) : bool :=
  N.leb lo (N_of_ascii c) && N.leb (N_of_ascii c) hi.

(** [asciiSpace]: '\t', '\n', '\v', '\f', '\r', ' '. *)
Definition asciiSpace (c : ascii) : bool :=
  byte_in 9 13 c || byte_is 32 c.

(** The two-byte UTF-8 encodings of the white space of Latin-1 beyond
    ASCII: U+0085 (NEL) and U+00A0 (NBSP). *)
Definition space2 (a b : ascii) : bool :=
  byte_is 194 a && (byte_is 133 b || byte_is 160 b).

(** The three-byte UTF-8 encodings of the remaining code points of
    [unicode.White_Space]: U+1680, U+2000..U+200A, U+2028, U+2029, U+202F,
    U+205F, U+3000. *)
Definition space3 (a b c : ascii) : bool :=
  (byte_is 225 a && byte_is 154 b && byte_is 128 c)
  || (byte_is 226 a && byte_is 128 b
      && (byte_in 128 138 c || byte_is 168 c || byte_is 169 c || byte_is 175 c))
  || (byte_is 226 a && byte_is 129 b && byte_is 159 c)
  || (byte_is 227 a && byte_is 128 b && byte_is 128 c).

(** Dropping runes from the front of a string, where [sp1], [sp2] and [sp3]
    say which sequences of one, two and three bytes are the runes to drop.
    A byte sequence that is none of them stops the scan. *)
Section Trim.
Variable sp1 : ascii -> bool.
Variable sp2 : ascii -> ascii -> bool.
Variable sp3 : ascii -> ascii -> ascii -> bool.

Definition isRune (t : string) : bool :=
  match t with
  | String a EmptyString => sp1 a
  | String a (String b EmptyString) => sp2 a b
  | String a (String b (String c EmptyString)) => sp3 a b c
  | _ => false
  end.

Fixpoint trimFront (s : string) : string :=
  match s with
  | String a s1 =>
      if sp1 a then trimFront s1 else
      match s1 with
      | String b s2 =>
          if sp2 a b then trimFront s2 else
          match s2 with
          | String c s3 => if sp3 a b c then trimFront s3 else s
          | EmptyString => s
          end
      | EmptyString => s
      end
  | EmptyString => s
  end.
End Trim.

(** [isSpaceRune t]: the bytes [t] are the UTF-8 encoding of one code point
    for which [unicode.IsSpace] holds. *)
Definition isSpaceRune (t : string) : bool := isRune asciiSpace space2 space3 t.

(** [TrimLeftFunc s unicode.IsSpace]: drop white space runes from the
    front.  (An invalid encoding decodes to U+FFFD, which is no space.) *)
Definition trimLeft (s : string) : string := trimFront asciiSpace space2 space3 s.

Fixpoint rev_append (s acc : string) : string :=
  match s with
  | EmptyString => acc
  | String a s' => rev_append s' (String a acc)
  end.

Definition rev (s : string) : string := rev_append s "".

(** [TrimRightFunc s unicode.IsSpace]: the same scan from the end, on the
    reversed bytes ([utf8.DecodeLastRuneInString] finds the last rune by
    walking back over continuation bytes to its lead byte). *)
Definition trimRight (s : string) : string :=
  rev (trimFront asciiSpace (fun a b => space2 b a) (fun a b c => space3 c b a) (rev s)).

(** [strings.TrimSpace]: "returns a slice of the string s, with all leading
    and trailing white space removed, as defined by Unicode".  Its ASCII
    fast path and its fall-back to [TrimFunc] / [TrimRightFunc] compute the
    same slice: the front is trimmed first, then the end of what is left. *)
Definition TrimSpace (s : string) : string := trimRight (trimLeft s).

(** [strings.Fields]: split around each run of white space. *)
Fixpoint fieldsGo (s cur : string) (acc : list string) : list string :=
  let flush := if String.eqb cur "" then acc else rev cur :: acc in
  match s with
  | EmptyString => List.rev flush
  | String a s1 =>
      if asciiSpace a then fieldsGo s1 "" flush else
      match s1 with
      | String b s2 =>
          if space2 a b then fieldsGo s2 "" flush else
          match s2 with
          | String c s3 =>
              if space3 a b c then fieldsGo s3 "" flush
              else fieldsGo s1 (String a cur) acc
          | EmptyString => fieldsGo s1 (String a cur) acc
          end
      | EmptyString => fieldsGo s1 (String a cur) acc
      end
  end.

Definition Fields (s : string) : list string := fieldsGo s "" [].

End strings.

(** *** package path *)
Module path.

Definition slash : ascii := ascii_of_N 47.

(** The elements between the slashes of [s]; [cur] is the element being
    read, reversed. *)
Fixpoint splitGo (s cur : string) : list string :=
  match s with
  | EmptyString => [strings.rev cur]
  | String a s' =>
      if Ascii.eqb a slash then strings.rev cur :: splitGo s' ""
      else splitGo s' (String a cur)
  end.

Definition split (s : string) : list string := splitGo s "".

Fixpoint joinSlash (l : list string) : string :=
  match l with
  | [] => ""
  | [e] => e
  | e :: l' => e ++ String slash (joinSlash l')
  end.

(** One step of [Clean]'s loop on the element [e]; [out] is the output so
    far, last element first, and [rooted] says that the path starts with a
    slash.  An empty element and "." are skipped; ".." removes the last
    element, unless there is none to remove: then it is kept in a relative
    path and dropped in a rooted one. *)
Definition cleanStep (rooted : bool) (out : list string) (e : string) : list string :=
  if String.eqb e "" || String.eqb e "." then out
  else if String.eqb e ".." then
    match out with
    | top :: rest =>
        if String.eqb top ".." then e :: out else rest
    | [] => if rooted then out else [e]
    end
  else e :: out.

(** [path.Clean]. *)
Definition Clean (p : string) : string :=
  match p with
  | EmptyString => "."
  | String a _ =>
      let rooted := Ascii.eqb a slash in
      let out := List.rev (fold_left (cleanStep rooted) (split p) []) in
      if rooted then String slash (joinSlash out)
      else if String.eqb (joinSlash out) "" then "." else joinSlash out
  end.

(** [path.Join]: the elements are joined with slashes, empty elements at
    the front are ignored, and the result is cleaned; all elements empty
    gives the empty string. *)
Definition Join (elem : list string) : string :=
  let buf :=
    fold_left
      (fun buf e =>
         if negb (String.eqb buf "") || negb (String.eqb e "")
         then (if negb (String.eqb buf "") then buf ++ String slash "" else buf) ++ e
         else buf)
      elem "" in
  if String.eqb (String.concat "" elem) "" then "" else Clean buf.

Fixpoint dropSlashes (s : string) : string :=
  match s with
  | String a s' => if Ascii.eqb a slash then dropSlashes s' else s
  | EmptyString => s
  end.

Fixpoint untilSlash (s : string) : string :=
  match s with
  | String a s' => if Ascii.eqb a slash then "" else String a (untilSlash s')
  | EmptyString => ""
  end.

(** [path.Base]: the last element of the path. *)
Definition Base (p : string) : string :=
  if String.eqb p "" then "."
  else
    let last := strings.rev (untilSlash (dropSlashes (strings.rev p))) in
    if String.eqb last "" then String slash "" else last.

End path.

(** *** package fmt: the verb %d *)
Module fmt.

Definition digit (n : N) : ascii := ascii_of_N (48 + n).

(** The decimal digits of [n], most significant first; [fuel] bounds the
    number of digits. *)
Fixpoint digits (fuel : nat) (n : N) (acc : string) : string :=
  match fuel with
  | O => acc
  | S fuel' =>
      let acc' := String (digit (n mod 10)%N) acc in
      if (n <? 10)%N then acc' else digits fuel' (n / 10)%N acc'
  end.

Definition utoa (n : N) : string := digits (S (N.size_nat n)) n "".

(** [fmt.Sprintf("%d", n)]. *)
Definition itoa (n : Z) : string :=
  match n with
  | Z0 => "0"
  | Zpos p => utoa (Npos p)
  | Zneg p => "-" ++ utoa (Npos p)
  end.

End fmt.

(** *** package bufio: a [Scanner] with the default split function *)
Module bufio.

Definition newline : ascii := ascii_of_N 10.
Definition cr : ascii := ascii_of_N 13.

Definition MaxScanTokenSize : N := 65536.

(** The pieces of [s] between its newlines, each reversed; the piece after
    the last newline is left out when it is empty. *)
Fixpoint chunks (s cur : string) : list string :=
  match s with
  | EmptyString => if String.eqb cur "" then [] else [cur]
  | String a s' =>
      if Ascii.eqb a newline then cur :: chunks s' ""
      else chunks s' (String a cur)
  end.

(** [dropCR], on a reversed line. *)
Definition dropCR (r : string) : string :=
  match r with
  | String a r' => if Ascii.eqb a cr then r' else r
  | EmptyString => r
  end.

(** A line fits when the buffer of [MaxScanTokenSize] bytes can hold it
    with its newline. *)
Definition fits (r : string) : bool :=
  (N.of_nat (String.length r) <? MaxScanTokenSize)%N.

Fixpoint tokens (l : list string) : list string :=
  match l with
  | [] => []
  | r :: l' => if fits r then strings.rev (dropCR r) :: tokens l' else []
  end.

(** The lines [Scan] yields on the content [s], until the end of the
    content or the first line that is too long. *)
Definition ScanLines (s : string) : list string := tokens (chunks s "").

End bufio.

(** ** Errors *)

Inductive Errno : Set :=
| EPERM | ENOENT | EACCES | EBUSY | EEXIST | ENOTDIR | EISDIR | EINVAL | ENOTEMPTY.

Inductive Err : Set :=
| ErrorString (msg : string)                    (* errors.New, errors.Errorf *)
| PathError (op name : string) (errno : Errno)  (* what package os returns *)
| ExitError (status : Z).                       (* what package os/exec returns *)

(** Go's [error]; [None] is [nil]. *)
Abbreviation error := (option Err).

Definition isNil (e : error) : bool :=
  match e with None => true | Some _ => false end.

(** [fs.FileMode] is a uint32; [ModeSymlink] is its bit 27. *)
Definition ModeDir : Z := Z.shiftl 1 31.
Definition ModeSymlink : Z := Z.shiftl 1 27.
Definition ModeDevice : Z := Z.shiftl 1 26.
Definition ModeCharDevice : Z := Z.shiftl 1 21.

(** ** Calls out of the process, and programs that make them *)

Inductive Call : Type -> Type :=
| Stat (name : string) : Call error                       (* os.Stat; only the error is used *)
| Lstat (name : string) : Call (Z * error)                (* os.Lstat: the file mode *)
| Mkdir (name : string) (perm : Z) : Call error
| MkdirAll (name : string) (perm : Z) : Call error
| Remove (name : string) : Call error
| ReadFile (name : string) : Call (string * error)
| WriteFile (name data : string) (perm : Z) : Call error
| Open (name : string) : Call (string * error)            (* os.Open: the bytes a Scanner reads from the file *)
| Command (name : string) (arg : list string) : Call error (* exec.Command(name, arg...).Run() *)
| Executable : Call (string * error)
| Getpid : Call Z
| AddUint32 (delta : Z) : Call Z.                          (* atomic.AddUint32(&simCounter, delta) *)

Inductive Prog (A : Type) : Type :=
| Ret (a : A)
| Vis {R : Type} (c : Call R) (k : R -> Prog A).
Arguments Ret {A} a.
Arguments Vis {A R} c k.

Fixpoint bind {A B : Type} (p : Prog A) (f : A -> Prog B) : Prog B :=
  match p with
  | Ret a => f a
  | Vis c k => Vis c (fun r => bind (k r) f)
  end.

Definition call {R : Type} (c : Call R) : Prog R := Vis c Ret.

Declare Scope prog_scope.
Delimit Scope prog_scope with prog.
Notation "'let*' x ':=' p 'in' q" := (bind p (fun x => q))
  (at level 10, x binder, p at level 100, q at level 200) : prog_scope.
Notation "p ;; q" := (bind p (fun _ => q))
  (at level 100, right associativity) : prog_scope.
Local Open Scope prog_scope.

(** A statement [if err := p; err != nil { return err }] followed by [q]. *)
Definition orReturn (p q : Prog error) : Prog error :=
  let* err := p in if isNil err then q else Ret err.
Notation "p ;;! q" := (orReturn p q)
  (at level 100, right associativity) : prog_scope.

(** [for _, x := range l { body }] where the body may return an error. *)
Fixpoint forRange {X : Type} (l : list X) (body : X -> Prog error) : Prog error :=
  match l with
  | [] => Ret None
  | x :: l' => body x ;;! forRange l' body
  end.

(** The same loop where the body returns nothing. *)
Fixpoint forEach {X : Type} (l : list X) (body : X -> Prog unit) : Prog unit :=
  match l with
  | [] => Ret tt
  | x :: l' => body x ;; forEach l' body
  end.

(** The (index, element) pairs that [range] yields on a slice. *)
Fixpoint indexedFrom {X : Type} (i : Z) (l : list X) : list (Z * X) :=
  match l with
  | [] => []
  | x :: l' => (i, x) :: indexedFrom (i + 1) l'
  end.
Definition indexed {X : Type} (l : list X) : list (Z * X) := indexedFrom 0 l.

(** ** Running a program *)

Inductive Event : Type :=
| Ev {R : Type} (c : Call R) (r : R).

Record OS : Type := {
  world : Type;
  handle : forall R : Type, Call R -> world -> R * world
}.
Arguments handle o {R} c w.

Fixpoint run {A : Type} (os : OS) (p : Prog A) (w : world os)
  : A * world os * list Event :=
  match p with
  | Ret a => (a, w, [])
  | Vis c k =>
      let '(r, w1) := handle os c w in
      let '(a, w2, t) := run os (k r) w1 in
      (a, w2, Ev c r :: t)
  end.

Definition result {A W : Type} (x : A * W * list Event) : A := x.1.1.
Definition final {A W : Type} (x : A * W * list Event) : W := x.1.2.
Definition trace {A W : Type} (x : A * W * list Event) : list Event := x.2.

(** ** The data model (bank.go, chip.go, sim.go) *)

(** [HogDirection] is an [int]. *)
Definition HogDirectionInput : Z := 0.
Definition HogDirectionOutputLow : Z := 1.
Definition HogDirectionOutputHigh : Z := 2.

Definition LevelInactive : Z := 0.
Definition LevelActive : Z := 1.

Record Hog : Type := {
  Consumer : string;
  Direction : Z
}.

(** A Go map is kept as the list of its entries in the order in which
    [range] visits them, which Go leaves open: every order is a value of
    this type.  The keys of a map are distinct ([mapOK]). *)
Definition gomap (V : Type) : Type := list (Z * V).

Definition mapOK {V : Type} (m : gomap V) : Prop := NoDup (m.*1).

(** [m[k] = v]. *)
Fixpoint mapSet {V : Type} (m : gomap V) (k : Z) (v : V) : gomap V :=
  match m with
  | [] => [(k, v)]
  | (k', v') :: m' =>
      if Z.eqb k' k then (k, v) :: m' else (k', v') :: mapSet m' k v
  end.

Record Bank : Type := {
  NumLines : Z;
  Label : string;
  Names : gomap string;
  Hogs : gomap Hog
}.

Record Chip : Type := {
  chip_configfsPath : string;   (* the field [configfsPath] of [Chip] *)
  devPath : string;
  chipName : string;
  devName : string;
  sysfsPath : string;
  cfg : Bank
}.

Record Sim : Type := {
  Name : string;
  Chips : list Chip;
  configfsPath : string
}.

Record builder : Type := {
  name : string;
  banks : list Bank
}.

(** ** Options (options.go) *)

Inductive NewBankOption : Type :=
| WithNamedLine (offset : Z) (label : string)
| WithHoggedLine (offset : Z) (consumer : string) (direction : Z).

Definition applyBankOption (o : NewBankOption) (b : Bank) : Bank :=
  match o with
  | WithNamedLine offset n =>
      {| NumLines := NumLines b; Label := Label b;
         Names := mapSet (Names b) offset n; Hogs := Hogs b |}
  | WithHoggedLine offset consumer direction =>
      {| NumLines := NumLines b; Label := Label b; Names := Names b;
         Hogs := mapSet (Hogs b) offset
                   {| Consumer := consumer; Direction := direction |} |}
  end.

Definition NewBank (label : string) (numLines : Z) (options : list NewBankOption) : Bank :=
  fold_left (fun b o => applyBankOption o b) options
    {| NumLines := numLines; Label := label; Names := []; Hogs := [] |}.

Inductive NewSimOption : Type :=
| WithName (n : string)
| WithBank (b : Bank).

Definition applySimOption (o : NewSimOption) (b : builder) : builder :=
  match o with
  | WithName n => {| name := n; banks := banks b |}
  | WithBank k => {| name := name b; banks := (banks b ++ [k])%list |}
  end.

(** ** Attribute files (sysfs.go) *)

(** The permission bits 0666 and 0755, written in octal in the source. *)
Definition perm0666 : Z := 6 * 64 + 6 * 8 + 6.
Definition perm0755 : Z := 7 * 64 + 5 * 8 + 5.

Definition readAttr (p attr : string) : Prog (string * error) :=
  let* '(data, err) := call (ReadFile (path.Join [p; attr])) in
  if isNil err then Ret (strings.TrimSpace data, None) else Ret ("", err).

Definition writeAttr (p attr value : string) : Prog error :=
  call (WriteFile (path.Join [p; attr]) value perm0666).

(** ** Chips (chip.go) *)

Definition ChipName (c : Chip) : string := chipName c.
Definition Config (c : Chip) : Bank := cfg c.
Definition DevPath (c : Chip) : string := devPath c.

Definition attr (c : Chip) (offset : Z) (nm : string) : Prog (string * error) :=
  readAttr (path.Join [sysfsPath c; "sim_gpio" ++ fmt.itoa offset]) nm.

Definition setAttr (c : Chip) (offset : Z) (nm value : string) : Prog error :=
  writeAttr (path.Join [sysfsPath c; "sim_gpio" ++ fmt.itoa offset]) nm value.

Definition Level (c : Chip) (offset : Z) : Prog (Z * error) :=
  let* '(v, err) := attr c offset "value" in
  if isNil err then
    if String.eqb v "0" then Ret (LevelInactive, None)
    else if String.eqb v "1" then Ret (LevelActive, None)
    else Ret (LevelInactive, Some (ErrorString ("unexpected level value: " ++ v)))
  else Ret (LevelInactive, err).

Definition Pull (c : Chip) (offset : Z) : Prog (Z * error) :=
  let* '(v, err) := attr c offset "pull" in
  if isNil err then
    if String.eqb v "pull-down" then Ret (LevelInactive, None)
    else if String.eqb v "pull-up" then Ret (LevelActive, None)
    else Ret (LevelInactive, Some (ErrorString ("unexpected pull value: " ++ v)))
  else Ret (LevelInactive, err).

Definition SetPull (c : Chip) (offset level : Z) : Prog error :=
  let l := if Z.eqb level LevelActive then "pull-up" else "pull-down" in
  setAttr c offset "pull" l.

Definition Pulldown (c : Chip) (offset : Z) : Prog error :=
  SetPull c offset LevelInactive.

Definition Pullup (c : Chip) (offset : Z) : Prog error :=
  SetPull c offset LevelActive.

Definition Toggle (c : Chip) (offset : Z) : Prog error :=
  let* '(p, err) := Pull c offset in
  if isNil err then
    let p' := if Z.eqb p 0 then 1 else 0 in
    SetPull c offset p'
  else Ret err.

(** ** The simulator (sim.go) *)

Definition hogDirectionToString (d : Z) : string :=
  if Z.eqb d HogDirectionOutputLow then "output-low"
  else if Z.eqb d HogDirectionOutputHigh then "output-high"
  else "input".

Definition bankPathOf (s : Sim) (i : Z) : string :=
  path.Join [configfsPath s; "bank" ++ fmt.itoa i].

Definition linePathOf (bankPath : string) (o : Z) : string :=
  path.Join [bankPath; "line" ++ fmt.itoa o].

(** The body of the loop over [c.cfg.Names] in [setupConfigfs]. *)
Definition setupName (bankPath : string) (on : Z * string) : Prog error :=
  let linePath := linePathOf bankPath on.1 in
  call (Mkdir linePath perm0755) ;;!
  writeAttr linePath "name" on.2.

(** The body of the loop over [c.cfg.Hogs] in [setupConfigfs]. *)
Definition setupHog (bankPath : string) (oh : Z * Hog) : Prog error :=
  let hogPath := path.Join [bankPath; "line" ++ fmt.itoa oh.1; "hog"] in
  call (MkdirAll hogPath perm0755) ;;!
  writeAttr hogPath "name" (Consumer oh.2) ;;!
  writeAttr hogPath "direction" (hogDirectionToString (Direction oh.2)).

(** The body of the loop over [s.Chips] in [setupConfigfs]. *)
Definition setupBank (s : Sim) (ic : Z * Chip) : Prog error :=
  let bankPath := bankPathOf s ic.1 in
  call (MkdirAll bankPath perm0755) ;;!
  writeAttr bankPath "label" (Label (cfg ic.2)) ;;!
  writeAttr bankPath "num_lines" (fmt.itoa (NumLines (cfg ic.2))) ;;!
  forRange (Names (cfg ic.2)) (setupName bankPath) ;;!
  forRange (Hogs (cfg ic.2)) (setupHog bankPath).

Definition setupConfigfs (s : Sim) : Prog error :=
  forRange (indexed (Chips s)) (setupBank s).

(** The body of the loop over [s.Chips] in [cleanupConfigfs]; the results of
    [os.Remove] are dropped. *)
Definition cleanupBank (s : Sim) (ic : Z * Chip) : Prog unit :=
  let bankPath := bankPathOf s ic.1 in
  let* err := call (Stat bankPath) in
  if isNil err then
    forEach (Hogs (cfg ic.2)) (fun oh =>
      let linePath := linePathOf bankPath oh.1 in
      call (Remove (path.Join [linePath; "hog"])) ;;
      call (Remove linePath) ;;
      Ret tt) ;;
    forEach (Names (cfg ic.2)) (fun on =>
      let linePath := linePathOf bankPath on.1 in
      call (Remove linePath) ;;
      Ret tt) ;;
    call (Remove bankPath) ;;
    Ret tt
  else Ret tt.

Definition cleanupConfigfs (s : Sim) : Prog error :=
  let* err := writeAttr (configfsPath s) "live" "0" in
  if isNil err then
    forEach (indexed (Chips s)) (cleanupBank s) ;;
    call (Remove (configfsPath s)) ;;
    Ret None
  else Ret err.

(** [Close] has a pointer receiver: it returns the [Sim] it leaves. *)
Definition Close (s : Sim) : Prog Sim :=
  cleanupConfigfs s ;;
  Ret {| Name := Name s; Chips := []; configfsPath := configfsPath s |}.

Definition appName : Prog string :=
  let* '(str, err) := call Executable in
  if isNil err then Ret (path.Base str) else Ret "gpiosim".

Definition uniqueName : Prog string :=
  let* app := appName in
  let* pid := call Getpid in
  let* n := call (AddUint32 1) in
  Ret (app ++ "-p" ++ fmt.itoa pid ++ "-" ++ fmt.itoa n).

(** The test of the scan loop of [configfsMountPoint]. *)
Definition isConfigfsMount (words : list string) : bool :=
  (6 <=? Z.of_nat (length words)) && String.eqb (nth 2 words "") "configfs".

(** The file is read by a [bufio.Scanner]; the deferred [file.Close()] has
    no result that is used. *)
Definition configfsMountPoint : Prog (string * error) :=
  let* '(content, err) := call (Open "/proc/mounts") in
  if isNil err then
    match List.find isConfigfsMount (List.map strings.Fields (bufio.ScanLines content)) with
    | Some words => Ret (nth 1 words "", None)
    | None =>
        let configfs := "/sys/kernel/config" in
        let* err := call (Command "mount" ["-t"; "configfs"; "configfs"; configfs]) in
        if isNil err then Ret (configfs, None)
        else Ret ("", Some (ErrorString "can't find configfs mountpoint"))
    end
  else Ret ("", err).

Definition findConfigfsPath : Prog (string * error) :=
  let configfs := "/sys/kernel/config/gpio-sim" in
  let notLoaded := Ret ("", Some (ErrorString "gpio-sim module not loaded")) in
  let mounts :=
    let* '(mnt, err) := configfsMountPoint in
    if isNil err then
      let configfs := path.Join [mnt; "gpio-sim"] in
      let* err := call (Stat configfs) in
      if isNil err then Ret (configfs, None) else notLoaded
    else notLoaded in
  let* err := call (Stat configfs) in
  if isNil err then Ret (configfs, None)
  else
    let* err := call (Command "modprobe" ["gpio-sim"]) in
    if isNil err then
      let* err := call (Stat configfs) in
      if isNil err then Ret (configfs, None) else mounts
    else mounts.

(** [s.Chips[i] = f(s.Chips[i])]. *)
Definition setChip (s : Sim) (i : nat) (f : Chip -> Chip) : Sim :=
  {| Name := Name s; Chips := alter f i (Chips s); configfsPath := configfsPath s |}.

(** The loop [for i := range s.Chips] of [live], from the index at the head
    of [idx] on. *)
Fixpoint liveChips (dev : string) (idx : list nat) (s : Sim) : Prog (option Sim * error) :=
  match idx with
  | [] => Ret (Some s, None)
  | i :: idx' =>
      let bankPath := bankPathOf s (Z.of_nat i) in
      let* '(chip, err) := readAttr bankPath "chip_name" in
      if isNil err then
        let s1 := setChip s i (fun c =>
          {| chip_configfsPath := chip_configfsPath c; devPath := devPath c;
             chipName := chip; devName := dev;
             sysfsPath := sysfsPath c; cfg := cfg c |}) in
        let devPath' := path.Join ["/dev"; chip] in
        let* '(mode, err) := call (Lstat devPath') in
        if isNil err then
          if negb (Z.eqb (Z.land mode ModeSymlink) 0) then
            Ret (None, Some (ErrorString
              ("A symlink (" ++ devPath' ++ ") is masking GPIO device " ++ chip)))
          else
            let s2 := setChip s1 i (fun c =>
              {| chip_configfsPath := chip_configfsPath c; devPath := devPath';
                 chipName := chipName c; devName := devName c;
                 sysfsPath := path.Join ["/sys/devices/platform"; dev; chip];
                 cfg := cfg c |}) in
            liveChips dev idx' s2
        else Ret (None, err)
      else Close s ;; Ret (None, err)
  end.

Definition newChip (k : Bank) : Chip :=
  {| chip_configfsPath := ""; devPath := ""; chipName := ""; devName := "";
     sysfsPath := ""; cfg := k |}.

(** The name the sim gets: [b.name], or a generated one when it is empty. *)
Definition liveName (b : builder) : Prog string :=
  if String.eqb (name b) "" then uniqueName else Ret (name b).

Definition live (b : builder) : Prog (option Sim * error) :=
  if Nat.eqb (length (banks b)) 0 then Ret (None, Some (ErrorString "no banks defined"))
  else
    let* nm := liveName b in
    let* '(root, err) := findConfigfsPath in
    if isNil err then
      let configfsPath := path.Join [root; nm] in
      let* err := call (Stat configfsPath) in
      if isNil err then
        Ret (None, Some (ErrorString ("sim with name '" ++ nm ++ "' already exists")))
      else
        let s := {| Name := nm; Chips := List.map newChip (banks b);
                    configfsPath := configfsPath |} in
        let* err := setupConfigfs s in
        let* err := (if isNil err then writeAttr configfsPath "live" "1" else Ret err) in
        if isNil err then
          let* '(dev, err) := readAttr configfsPath "dev_name" in
          if isNil err then liveChips dev (seq 0 (length (Chips s))) s
          else Close s ;; Ret (None, err)
        else Close s ;; Ret (None, err)
    else Ret (None, err).

Definition NewSim (options : list NewSimOption) : Prog (option Sim * error) :=
  live (fold_left (fun b o => applySimOption o b) options {| name := ""; banks := [] |}).

(** ** The single-chip sim (simpleton.go) *)
Module Simpleton.

(** [type Simpleton struct { Sim }]. *)
Record t : Type := { embedded : Sim }.

Definition NewSimpleton (numLines : Z) : Prog (option t * error) :=
  let* '(s, err) := NewSim [WithBank (NewBank "simpleton" numLines [])] in
  match s with
  | None => Ret (None, err)
  | Some s => Ret (Some {| embedded := s |}, err)
  end.

(** [s.Chips[0]]: [None] is the run-time panic "index out of range". *)
Definition first (s : t) : option Chip := Chips (embedded s) !! 0%nat.

Definition ChipName (s : t) : option string := chipName <$> first s.
Definition Config (s : t) : option Bank := cfg <$> first s.
Definition DevPath (s : t) : option string := devPath <$> first s.

Definition Level (s : t) (offset : Z) : option (Prog (Z * error)) :=
  (fun c => Level c offset) <$> first s.

Definition Pull (s : t) (offset : Z) : option (Prog (Z * error)) :=
  (fun c => Pull c offset) <$> first s.

Definition Pulldown (s : t) (offset : Z) : option (Prog error) :=
  (fun c => Pulldown c offset) <$> first s.

Definition Pullup (s : t) (offset : Z) : option (Prog error) :=
  (fun c => Pullup c offset) <$> first s.

Definition SetPull (s : t) (offset level : Z) : option (Prog error) :=
  (fun c => SetPull c offset level) <$> first s.

Definition Toggle (s : t) (offset : Z) : option (Prog error) :=
  (fun c => Toggle c offset) <$> first s.

(** [Close] is the method of the embedded [Sim]. *)
Definition Close (s : t) : Prog t :=
  let* s' := Close (embedded s) in Ret {| embedded := s' |}.

End Simpleton.

(** ** A reference operating system

    An in-memory tree that behaves like configfs with the gpio-sim module
    loaded, as far as the package can tell:
    - a directory is removed together with the attribute files in it, but
      not while it has a subdirectory;
    - an attribute [live] listed in [kernel] accepts "1" when the sim is not
      live and "0" when it is live, and refuses (EPERM) a value that would
      not change its state; going live publishes the nodes listed for it
      (the attributes [dev_name] and [chip_name], the devices, the sysfs
      tree) where no node is in their place, and leaving that state removes
      them again. *)
Module simfs.

Inductive node : Set :=
| Dir
| File (content : string)
| Symlink (target : string)
| CharDevice.

Record state : Type := {
  nodes : gmap string node;
  kernel : list (string * list (string * node));
  simCounter : Z;
  exe : string;
  pid : Z
}.

Definition withNodes (w : state) (m : gmap string node) : state :=
  {| nodes := m; kernel := kernel w; simCounter := simCounter w;
     exe := exe w; pid := pid w |}.

Fixpoint afterSlash (s : string) : string :=
  match s with
  | String a s' => if Ascii.eqb a path.slash then s else afterSlash s'
  | EmptyString => s
  end.

(** The directory a path lies in. *)
Definition dirOf (p : string) : string :=
  let d := strings.rev (path.dropSlashes (afterSlash (strings.rev p))) in
  if String.eqb d "" then
    match p with
    | String a _ => if Ascii.eqb a path.slash then "/" else "."
    | EmptyString => "."
    end
  else d.

Definition lookupNode (w : state) (p : string) : option node :=
  if String.eqb p "/" || String.eqb p "." then Some Dir else nodes w !! p.

Definition isDir (n : option node) : bool :=
  match n with Some Dir => true | _ => false end.

Definition modeOf (n : node) : Z :=
  match n with
  | Dir => Z.lor ModeDir perm0755
  | File _ => 6 * 64 + 4 * 8 + 4
  | Symlink _ => Z.lor ModeSymlink (7 * 64 + 7 * 8 + 7)
  | CharDevice => Z.lor (Z.lor ModeDevice ModeCharDevice) (6 * 64)
  end.

(** The paths of [p] and of the directories above it, outermost first. *)
Definition prefixes (p : string) : list string :=
  let rooted := match p with
                | String a _ => Ascii.eqb a path.slash
                | EmptyString => false
                end in
  let step (acc : string * list string) (e : string) :=
    if String.eqb e "" then acc
    else
      let cur := if String.eqb acc.1 "" && negb rooted then e
                 else acc.1 ++ "/" ++ e in
      (cur, (acc.2 ++ [cur])%list) in
  (fold_left step (path.split p) ("", [])).2.

Definition mkdir (p : string) (w : state) : error * state :=
  match lookupNode w p with
  | Some _ => (Some (PathError "mkdir" p EEXIST), w)
  | None =>
      if isDir (lookupNode w (dirOf p))
      then (None, withNodes w (<[p := Dir]> (nodes w)))
      else (Some (PathError "mkdir" p ENOENT), w)
  end.

Fixpoint mkdirAll (ps : list string) (w : state) : error * state :=
  match ps with
  | [] => (None, w)
  | p :: ps' =>
      match lookupNode w p with
      | Some Dir => mkdirAll ps' w
      | Some _ => (Some (PathError "mkdir" p ENOTDIR), w)
      | None =>
          let '(err, w') := mkdir p w in
          if isNil err then mkdirAll ps' w' else (err, w')
      end
  end.

Definition hasSubdir (w : state) (p : string) : bool :=
  existsb (fun kn => String.eqb (dirOf kn.1) p && isDir (Some kn.2))
          (map_to_list (nodes w)).

Definition remove (p : string) (w : state) : error * state :=
  match nodes w !! p with
  | None => (Some (PathError "remove" p ENOENT), w)
  | Some Dir =>
      if hasSubdir w p then (Some (PathError "remove" p ENOTEMPTY), w)
      else (None, withNodes w
              (delete p (filter (fun kn => dirOf kn.1 <> p) (nodes w))))
  | Some _ => (None, withNodes w (delete p (nodes w)))
  end.

Definition readFile (op p : string) (w : state) : string * error :=
  match lookupNode w p with
  | Some (File content) => (content, None)
  | Some Dir => ("", Some (PathError "read" p EISDIR))
  | Some _ => ("", Some (PathError "read" p EINVAL))
  | None => ("", Some (PathError op p ENOENT))
  end.

Definition isLive (w : state) (p : string) : bool :=
  match nodes w !! p with
  | Some (File content) => String.eqb (strings.TrimSpace content) "1"
  | _ => false
  end.

Definition publish (l : list (string * node)) (m : gmap string node) : gmap string node :=
  fold_left (fun m kn => match m !! kn.1 with
                         | None => <[kn.1 := kn.2]> m
                         | Some _ => m
                         end) l m.

Definition node_eqb (a b : node) : bool :=
  match a, b with
  | Dir, Dir | CharDevice, CharDevice => true
  | File x, File y | Symlink x, Symlink y => String.eqb x y
  | _, _ => false
  end.

Definition unpublish (l : list (string * node)) (m : gmap string node) : gmap string node :=
  fold_right (fun kn m => match m !! kn.1 with
                          | Some n => if node_eqb n kn.2 then delete kn.1 m else m
                          | None => m
                          end) m l.

Definition lookupKernel (w : state) (p : string) : option (list (string * node)) :=
  snd <$> List.find (fun e => String.eqb e.1 p) (kernel w).

Definition writeFile (p data : string) (w : state) : error * state :=
  match lookupNode w p with
  | Some Dir => (Some (PathError "open" p EISDIR), w)
  | Some (Symlink _) | Some CharDevice => (Some (PathError "open" p EINVAL), w)
  | Some (File _) | None =>
      if isDir (lookupNode w (dirOf p)) then
        match lookupKernel w p with
        | None => (None, withNodes w (<[p := File data]> (nodes w)))
        | Some published =>
            let v := strings.TrimSpace data in
            if String.eqb v "1" then
              if isLive w p then (Some (PathError "write" p EPERM), w)
              else (None, withNodes w (publish published (<[p := File "1"]> (nodes w))))
            else if String.eqb v "0" then
              if isLive w p
              then (None, withNodes w (<[p := File "0"]> (unpublish published (nodes w))))
              else (Some (PathError "write" p EPERM), w)
            else (Some (PathError "write" p EINVAL), w)
        end
      else (Some (PathError "open" p ENOENT), w)
  end.

Definition handler (R : Type) (c : Call R) (w : state) : R * state :=
  match c in Call R return R * state with
  | Stat p =>
      (match lookupNode w p with
       | Some _ => None
       | None => Some (PathError "stat" p ENOENT)
       end, w)
  | Lstat p =>
      (match lookupNode w p with
       | Some n => (modeOf n, None)
       | None => (0, Some (PathError "lstat" p ENOENT))
       end, w)
  | Mkdir p _ => mkdir p w
  | MkdirAll p _ => mkdirAll (prefixes p) w
  | Remove p => remove p w
  | ReadFile p => (readFile "open" p w, w)
  | WriteFile p data _ => writeFile p data w
  | Open p => (readFile "open" p w, w)
  | Command _ _ => (Some (ExitError 1), w)
  | Executable => ((exe w, None), w)
  | Getpid => (pid w, w)
  | AddUint32 delta =>
      let n := (simCounter w + delta) mod 2 ^ 32 in
      (n, {| nodes := nodes w; kernel := kernel w; simCounter := n;
             exe := exe w; pid := pid w |})
  end.

Definition os : OS := {| world := state; handle := handler |}.

End simfs.

(** The reference system with faults: a call for which [bad] holds is
    answered with the error [errno] and changes nothing; every other call is
    answered as on [simfs]. *)
Module faulty.

Definition refuse (errno : Errno) (R : Type) (c : Call R) : option R :=
  match c in Call R return option R with
  | Stat p => Some (Some (PathError "stat" p errno))
  | Lstat p => Some (0, Some (PathError "lstat" p errno))
  | Mkdir p _ => Some (Some (PathError "mkdir" p errno))
  | MkdirAll p _ => Some (Some (PathError "mkdir" p errno))
  | Remove p => Some (Some (PathError "remove" p errno))
  | ReadFile p => Some ("", Some (PathError "open" p errno))
  | WriteFile p _ _ => Some (Some (PathError "open" p errno))
  | Open p => Some ("", Some (PathError "open" p errno))
  | Command _ _ => Some (Some (ExitError 1))
  | Executable => Some ("", Some (PathError "readlink" "/proc/self/exe" errno))
  | Getpid => None
  | AddUint32 _ => None
  end.

Definition handler (bad : forall R : Type, Call R -> bool) (errno : Errno)
    (R : Type) (c : Call R) (w : simfs.state) : R * simfs.state :=
  if bad R c then
    match refuse errno R c with
    | Some r => (r, w)
    | None => simfs.handler R c w
    end
  else simfs.handler R c w.

Definition os (bad : forall R : Type, Call R -> bool) (errno : Errno) : OS :=
  {| world := simfs.state; handle := handler bad errno |}.

(** The calls an unprivileged process is refused: those that create, write
    or remove. *)
Definition changes (R : Type) (c : Call R) : bool :=
  match c with
  | Mkdir _ _ | MkdirAll _ _ | Remove _ | WriteFile _ _ _ => true
  | _ => false
  end.

End faulty.

(** ** Vocabulary of the statements *)

Definition nl : string := String bufio.newline "".

(** The attribute file of line [offset] of a live chip. *)
Definition attrPath (c : Chip) (offset : Z) (nm : string) : string :=
  path.Join [path.Join [sysfsPath c; "sim_gpio" ++ fmt.itoa offset]; nm].

Definition isWithBank (o : NewSimOption) : bool :=
  match o with WithBank _ => true | WithName _ => false end.

(** The banks among the options, in the order of the options. *)
Definition banksOf (options : list NewSimOption) : list Bank :=
  omap (fun o => match o with WithBank k => Some k | WithName _ => None end) options.

(** Calls that create, write or remove a file or a directory. *)
Definition mutates (e : Event) : bool :=
  match e with
  | Ev (Mkdir _ _) _ | Ev (MkdirAll _ _) _ | Ev (Remove _) _ | Ev (WriteFile _ _ _) _ => true
  | Ev _ _ => false
  end.

(** The three calls [setupConfigfs] makes for the hog [h] of line [o] in
    the bank directory [bankPath], each answered without error. *)
Definition hogCalls (bankPath : string) (o : Z) (h : Hog) : list Event :=
  let hogPath := path.Join [bankPath; "line" ++ fmt.itoa o; "hog"] in
  [ Ev (MkdirAll hogPath perm0755) None;
    Ev (WriteFile (path.Join [hogPath; "name"]) (Consumer h) perm0666) None;
    Ev (WriteFile (path.Join [hogPath; "direction"])
          (hogDirectionToString (Direction h)) perm0666) None ].

(** Calls of the teardown of the sim at [cfgPath]: the write of "0" to its
    [live] attribute, and every removal. *)
Definition isTeardownCall (cfgPath : string) (e : Event) : bool :=
  match e with
  | Ev (WriteFile p data _) _ =>
      String.eqb p (path.Join [cfgPath; "live"]) && String.eqb data "0"
  | Ev (Remove _) _ => true
  | Ev _ _ => false
  end.

(** [l] occurs in [t] as a run of consecutive events. *)
Definition occursIn (l t : list Event) : Prop :=
  exists pre post, t = (pre ++ l ++ post)%list.

(** The file [p] behaves as plain storage on the system [os]: in every
    state in which it [holds] some content, a write succeeds and leaves the
    data written as its content, and a read returns the content and leaves it
    in place. *)
Record PlainStorage (os : OS) (p : string) (holds : world os -> string -> Prop) : Prop := {
  storage_write : forall w c data perm,
    holds w c ->
    exists w', handle os (WriteFile p data perm) w = (None, w') /\ holds w' data;
  storage_read : forall w c,
    holds w c ->
    exists w', handle os (ReadFile p) w = ((c, None), w') /\ holds w' c
}.

(** On the reference system: [p] is a regular file with content [c] in a
    directory, and not an attribute the kernel reacts to. *)
Definition storesAt (p : string) (w : simfs.state) (c : string) : Prop :=
  simfs.lookupNode w p = Some (simfs.File c)
  /\ simfs.isDir (simfs.lookupNode w (simfs.dirOf p)) = true
  /\ simfs.lookupKernel w p = None.

(** [s] is made of runes only: a concatenation of sequences [isRune]
    accepts. *)
Inductive Runs (isRune : string -> bool) : string -> Prop :=
| Runs_nil : Runs isRune ""
| Runs_cons t s : isRune t = true -> Runs isRune s -> Runs isRune (t ++ s).

(** [s] is white space only. *)
Definition Spaces (s : string) : Prop := Runs strings.isSpaceRune s.

(** What C8 says [readAttr] returns for the file content [data]: the
    content with its trailing white space removed and nothing else. *)
Definition trailingSpaceRemoved (data : string) : string := strings.trimRight data.

(** Every call the program [p] can make, with whatever answer, satisfies
    [P]. *)
Fixpoint Emits {A : Type} (P : Event -> Prop) (p : Prog A) : Prop :=
  match p with
  | Ret _ => True
  | Vis c k => forall r, P (Ev c r) /\ Emits P (k r)
  end.

(** [a] is a value the program [p] can return, whatever the answers. *)
Fixpoint Returns {A : Type} (p : Prog A) (a : A) : Prop :=
  match p with
  | Ret a' => a = a'
  | Vis c k => exists r, Returns (k r) a
  end.

(** ** Concrete systems and inputs on which the statements are run *)
Module Scenario.
Import simfs.

Definition root : string := "/sys/kernel/config/gpio-sim".
Definition cfgp : string := "/sys/kernel/config/gpio-sim/gpiosim_test".
Definition sysp : string := "/sys/devices/platform/gpio-sim.0".

(** What the kernel publishes when the sim "gpiosim_test" goes live. *)
Definition published : list (string * node) :=
  [ (cfgp ++ "/dev_name", File ("gpio-sim.0" ++ nl));
    (cfgp ++ "/bank0/chip_name", File ("gpiochip0" ++ nl));
    (cfgp ++ "/bank1/chip_name", File ("gpiochip1" ++ nl));
    ("/dev/gpiochip0", CharDevice);
    ("/dev/gpiochip1", CharDevice);
    (sysp, Dir);
    (sysp ++ "/gpiochip0", Dir);
    (sysp ++ "/gpiochip0/sim_gpio3", Dir);
    (sysp ++ "/gpiochip0/sim_gpio3/pull", File ("pull-down" ++ nl));
    (sysp ++ "/gpiochip0/sim_gpio3/value", File ("0" ++ nl));
    (sysp ++ "/gpiochip1", Dir) ].

Definition baseNodes : list (string * node) :=
  [ ("/sys", Dir); ("/sys/kernel", Dir); ("/sys/kernel/config", Dir);
    (root, Dir); ("/dev", Dir); ("/sys/devices", Dir);
    ("/sys/devices/platform", Dir) ].

(** A system with the gpio-sim module loaded and no sim configured. *)
Definition fresh : state :=
  {| nodes := list_to_map baseNodes;
     kernel := [(cfgp ++ "/live", published)];
     simCounter := 0; exe := "/usr/bin/gpiosim.test"; pid := 4242 |}.

(** The two banks of [TestNewSim]. *)
Definition left : Bank :=
  NewBank "left" 8
    [WithNamedLine 3 "LED0"; WithNamedLine 5 "BUTTON1";
     WithHoggedLine 2 "piggy" HogDirectionOutputLow].

Definition right : Bank :=
  NewBank "right" 42
    [WithNamedLine 3 "BUTTON2"; WithNamedLine 4 "LED2";
     WithHoggedLine 7 "hogster" HogDirectionOutputHigh;
     WithHoggedLine 9 "piggy" HogDirectionInput].

Definition options : list NewSimOption :=
  [WithName "gpiosim_test"; WithBank left; WithBank right].

(** The system after [NewSim options] on [fresh], and the sim it returns. *)
Definition activated : state := final (run simfs.os (NewSim options) fresh).

Definition theSim : Sim :=
  match result (run simfs.os (NewSim options) fresh) with
  | (Some s, _) => s
  | (None, _) => {| Name := ""; Chips := []; configfsPath := "" |}
  end.

Definition chip0 : Chip := nth 0 (Chips theSim) (newChip left).

(** The same system, where a symbolic link already sits at the device path
    the first chip will get. *)
Definition masked : state :=
  withNodes fresh (<["/dev/gpiochip0" := Symlink "/dev/null"]> (nodes fresh)).

(** The sim [live] builds for [options], before any name is read back. *)
Definition sim0 : Sim :=
  {| Name := "gpiosim_test"; Chips := List.map newChip [left; right];
     configfsPath := cfgp |}.

(** The system after [setupConfigfs sim0] on [fresh]: the tree is built and
    the sim is not live. *)
Definition halfBuilt : state := final (run simfs.os (setupConfigfs sim0) fresh).

(** The builder [NewSim options] makes. *)
Definition theBuilder : builder :=
  {| name := "gpiosim_test"; banks := [left; right] |}.

(** A system with an attribute file whose text has white space on both
    sides. *)
Definition padded : state :=
  {| nodes := list_to_map [("/d", Dir); ("/d/a", File (" x" ++ nl))];
     kernel := []; simCounter := 0; exe := "/usr/bin/gpiosim.test"; pid := 4242 |}.

End Scenario.

(** ** Vocabulary of the further statements *)

(** A byte that is ASCII and no white space. *)
Definition plainByte (a : ascii) : bool :=
  (N_of_ascii a <? 128)%N && negb (strings.asciiSpace a).

(** A text that starts and ends with such a byte. *)
Definition plainEnds (v : string) : bool :=
  match v, strings.rev v with
  | String a _, String z _ => plainByte a && plainByte z
  | _, _ => false
  end.

(** Further systems and inputs. *)
Module Cases.
Import simfs.

Definition pull3 : string := "/sys/devices/platform/gpio-sim.0/gpiochip0/sim_gpio3/pull".

(** [Scenario.activated] with another text in the [pull] attribute of line 3
    of the first chip. *)
Definition pullHolds (text : string) : state :=
  withNodes Scenario.activated (<[pull3 := File text]> (nodes Scenario.activated)).

(** A system where the kernel does not react when a sim goes live: no
    [dev_name] appears. *)
Definition plain : state :=
  {| nodes := nodes Scenario.fresh; kernel := [];
     simCounter := 0; exe := "/usr/bin/gpiosim.test"; pid := 4242 |}.

(** A system where going live publishes the device name and nothing else. *)
Definition noChipName : state :=
  {| nodes := nodes Scenario.fresh;
     kernel := [(Scenario.cfgp ++ "/live",
                 [(Scenario.cfgp ++ "/dev_name", File ("gpio-sim.0" ++ nl))])];
     simCounter := 0; exe := "/usr/bin/gpiosim.test"; pid := 4242 |}.

(** That system after the tree of [Scenario.sim0] is built and set live. *)
Definition liveNoChipName : state :=
  final (run simfs.os (setupConfigfs Scenario.sim0 ;;!
                       writeAttr Scenario.cfgp "live" "1") noChipName).

(** The system on which an unprivileged process runs: creating, writing and
    removing are refused. *)
Definition unprivileged : OS := faulty.os faulty.changes EACCES.

(* MORE-CASES *)

End Cases.

(** [m[k]]: the value and whether the key is present. *)
Fixpoint mapGet {V : Type} (m : gomap V) (k : Z) : option V :=
  match m with
  | [] => None
  | (k', v) :: m' => if Z.eqb k' k then Some v else mapGet m' k
  end.

(** The name the options give to line [o]: that of the last [WithNamedLine]
    for [o]. *)
Definition namedAt (options : list NewBankOption) (o : Z) : option string :=
  fold_left (fun acc opt =>
               match opt with
               | WithNamedLine o' n => if Z.eqb o' o then Some n else acc
               | WithHoggedLine _ _ _ => acc
               end) options None.

(** The hog the options put on line [o]: that of the last [WithHoggedLine]
    for [o]. *)
Definition hoggedAt (options : list NewBankOption) (o : Z) : option Hog :=
  fold_left (fun acc opt =>
               match opt with
               | WithHoggedLine o' consumer direction =>
                   if Z.eqb o' o
                   then Some {| Consumer := consumer; Direction := direction |}
                   else acc
               | WithNamedLine _ _ => acc
               end) options None.

(** The name the options give to the sim: that of the last [WithName], the
    empty string when there is none. *)
Definition givenName (options : list NewSimOption) : string :=
  fold_left (fun acc o => match o with WithName n => n | WithBank _ => acc end)
    options "".

(** The two calls [setupConfigfs] makes for the name [n] of line [o] in the
    bank directory [bankPath], each answered without error. *)
Definition nameCalls (bankPath : string) (o : Z) (n : string) : list Event :=
  let linePath := linePathOf bankPath o in
  [ Ev (Mkdir linePath perm0755) None;
    Ev (WriteFile (path.Join [linePath; "name"]) n perm0666) None ].

(** The calls [setupConfigfs] makes for the chip [ic.2] at index [ic.1]. *)
Definition bankCalls (s : Sim) (ic : Z * Chip) : list Event :=
  let bankPath := bankPathOf s ic.1 in
  ([ Ev (MkdirAll bankPath perm0755) None;
     Ev (WriteFile (path.Join [bankPath; "label"]) (Label (cfg ic.2)) perm0666) None;
     Ev (WriteFile (path.Join [bankPath; "num_lines"])
           (fmt.itoa (NumLines (cfg ic.2))) perm0666) None ]
   ++ concat (List.map (fun on => nameCalls bankPath on.1 on.2) (Names (cfg ic.2)))
   ++ concat (List.map (fun oh => hogCalls bankPath oh.1 oh.2) (Hogs (cfg ic.2))))%list.

(** All the calls of a [setupConfigfs] that meets no error. *)
Definition setupCalls (s : Sim) : list Event :=
  concat (List.map (bankCalls s) (indexed (Chips s))).

(** The program [p] makes the calls of [calls] in order while they are
    answered without error, returns [nil] after the last, and returns the
    first error it is answered with, right after that answer. *)
Definition FailFast (p : Prog error) (calls : list Event) : Prop :=
  forall (os : OS) (w : world os),
    match run os p w with
    | (None, _, t) => t = calls
    | (Some e, _, t) =>
        exists (pre : list Event) (c : Call error),
          t = (pre ++ [Ev c (Some e)])%list
          /\ (pre ++ [Ev c None])%list `prefix_of` calls
    end.

(** The paths of the removals in a record of calls, in order. *)
Definition removed (t : list Event) : list string :=
  omap (fun e => match e with Ev (Remove p) _ => Some p | Ev _ _ => None end) t.

Definition isRemove (e : Event) : bool :=
  match e with Ev (Remove _) _ => true | Ev _ _ => false end.

(** What [cleanupConfigfs] removes for a bank whose directory is there: for
    each hog the [hog] directory and the line directory, for each named line
    the line directory, and then the bank directory. *)
Definition bankRemovals (bankPath : string) (c : Chip) : list string :=
  (concat (List.map (fun oh : Z * Hog =>
                       [path.Join [linePathOf bankPath oh.1; "hog"];
                        linePathOf bankPath oh.1]) (Hogs (cfg c)))
   ++ List.map (fun on : Z * string => linePathOf bankPath on.1) (Names (cfg c))
   ++ [bankPath])%list.

(** The calls of the loop of [cleanupConfigfs] over the banks [l]: for each
    bank a [Stat] of its directory; when that is answered with an error,
    nothing more for the bank; otherwise its removals, whatever their
    answers. *)
Inductive CleanupRun (s : Sim) : list (Z * Chip) -> list Event -> Prop :=
| CleanupRun_nil : CleanupRun s [] []
| CleanupRun_skip ic l t e :
    CleanupRun s l t ->
    CleanupRun s (ic :: l) (Ev (Stat (bankPathOf s ic.1)) (Some e) :: t)
| CleanupRun_remove ic l t tb :
    CleanupRun s l t ->
    forallb isRemove tb = true ->
    removed tb = bankRemovals (bankPathOf s ic.1) ic.2 ->
    CleanupRun s (ic :: l) (Ev (Stat (bankPathOf s ic.1)) None :: tb ++ t).

(* MORE-DEFINITIONS *)

(** ** Running programs: general facts *)

Section Run.
Context (os : OS).

Lemma run_bind {A B : Type} (p : Prog A) (f : A -> Prog B) (w : world os) :
  run os (bind p f) w =
    let '(a, w1, t1) := run os p w in
    let '(b, w2, t2) := run os (f a) w1 in
    (b, w2, (t1 ++ t2)%list).
Proof.
  revert w. induction p as [a | R c k IH]; intros w; simpl.
  - by destruct (run os (f a) w) as [[b w2] t2].
  - destruct (handle os c w) as [r w1]. rewrite IH.
    destruct (run os (k r) w1) as [[a w2] t1].
    by destruct (run os (f a) w2) as [[b w3] t2].
Qed.

Lemma run_bind_inv {A B : Type} (p : Prog A) (f : A -> Prog B) w b w2 t :
  run os (bind p f) w = (b, w2, t) ->
  exists a w1 t1 t2,
    run os p w = (a, w1, t1) /\ run os (f a) w1 = (b, w2, t2) /\ t = (t1 ++ t2)%list.
Proof.
  rewrite run_bind. destruct (run os p w) as [[a w1] t1].
  destruct (run os (f a) w1) as [[b' w2'] t2] eqn:Hf. intros [= <- <- <-].
  by exists a, w1, t1, t2.
Qed.

Lemma run_bind_intro {A B : Type} (p : Prog A) (f : A -> Prog B) w a w1 t1 b w2 t2 :
  run os p w = (a, w1, t1) -> run os (f a) w1 = (b, w2, t2) ->
  run os (bind p f) w = (b, w2, (t1 ++ t2)%list).
Proof. intros Hp Hf. by rewrite run_bind, Hp, Hf. Qed.

Lemma run_call {R : Type} (c : Call R) (w : world os) :
  run os (call c) w = let '(r, w1) := handle os c w in (r, w1, [Ev c r]).
Proof. simpl. by destruct (handle os c w). Qed.

Lemma run_Returns {A : Type} (p : Prog A) (w : world os) :
  Returns p (result (run os p w)).
Proof.
  revert w. induction p as [a | R c k IH]; intros w; simpl.
  - done.
  - destruct (handle os c w) as [r w1]. specialize (IH r w1).
    destruct (run os (k r) w1) as [[a w2] t]. by exists r.
Qed.

End Run.

Lemma Returns_bind_inv {A B : Type} (p : Prog A) (f : A -> Prog B) (b : B) :
  Returns (bind p f) b -> exists a, Returns p a /\ Returns (f a) b.
Proof.
  induction p as [a | R c k IH]; simpl; intros H.
  - by exists a.
  - destruct H as [r H]. destruct (IH r H) as (a & Ha & Hb).
    exists a. split; [by exists r | done].
Qed.


(** ** Activation without banks *)

Lemma banks_fold_applySimOption (options : list NewSimOption) (b : builder) :
  banks (fold_left (fun b o => applySimOption o b) options b)
  = (banks b ++ banksOf options)%list.
Proof.
  revert b. induction options as [| o options IH]; intros b; simpl.
  - by rewrite app_nil_r.
  - rewrite IH. destruct o as [n | k]; simpl; [done |].
    by rewrite <- app_assoc.
Qed.

Lemma banksOf_no_bank (options : list NewSimOption) :
  existsb isWithBank options = false -> banksOf options = [].
Proof.
  induction options as [| [n | k] options IH]; simpl; intros H; try done.
  by apply IH.
Qed.

Lemma live_no_banks (b : builder) :
  banks b = [] -> live b = Ret (None, Some (ErrorString "no banks defined")).
Proof. intros H. unfold live. by rewrite H. Qed.

(** C3. [NewSim] called with no [WithBank] option fails with the error
    "no banks defined", and it does so without a single call to the
    operating system: the program is the bare [return], so on every system
    the state is left as it was and the record of calls is empty. *)
Theorem C3_no_banks_no_side_effects :
  forall (os : OS) (w : world os) (options : list NewSimOption),
    existsb isWithBank options = false ->
    NewSim options = Ret (None, Some (ErrorString "no banks defined"))
    /\ run os (NewSim options) w
       = ((None, Some (ErrorString "no banks defined")), w, []).
Proof.
  intros os w options H.
  assert (NewSim options = Ret (None, Some (ErrorString "no banks defined"))) as E.
  { unfold NewSim. apply live_no_banks.
    rewrite banks_fold_applySimOption. simpl. by apply banksOf_no_bank. }
  split; [done |]. by rewrite E.
Qed.

Lemma C3_witness :
  existsb isWithBank [WithName "gpiosim_test"] = false
  /\ run simfs.os (NewSim [WithName "gpiosim_test"]) Scenario.fresh
     = ((None, Some (ErrorString "no banks defined")), Scenario.fresh, []).
Proof.
  split; [reflexivity |].
  apply (C3_no_banks_no_side_effects simfs.os Scenario.fresh [WithName "gpiosim_test"]).
  reflexivity.
Defined.

(** ** The pull of a line *)

Section Pull.
Context (os : OS).

Lemma run_readAttr (p a : string) (w : world os) :
  run os (readAttr p a) w =
    let '((data, err), w1) := handle os (ReadFile (path.Join [p; a])) w in
    (if isNil err then (strings.TrimSpace data, None) else ("", err),
     w1, [Ev (ReadFile (path.Join [p; a])) (data, err)]).
Proof.
  unfold readAttr. simpl.
  destruct (handle os (ReadFile (path.Join [p; a])) w) as [[data err] w1].
  by destruct err.
Qed.

Lemma run_writeAttr (p a value : string) (w : world os) :
  run os (writeAttr p a value) w =
    let '(err, w1) := handle os (WriteFile (path.Join [p; a]) value perm0666) w in
    (err, w1, [Ev (WriteFile (path.Join [p; a]) value perm0666) err]).
Proof. unfold writeAttr. apply run_call. Qed.

Lemma run_SetPull (c : Chip) (offset level : Z) (w : world os) :
  run os (SetPull c offset level) w =
    let text := if Z.eqb level LevelActive then "pull-up" else "pull-down" in
    let '(err, w1) := handle os (WriteFile (attrPath c offset "pull") text perm0666) w in
    (err, w1, [Ev (WriteFile (attrPath c offset "pull") text perm0666) err]).
Proof. unfold SetPull, setAttr. apply run_writeAttr. Qed.

Lemma run_Pull (c : Chip) (offset : Z) (w : world os) :
  run os (Pull c offset) w =
    let '((data, err), w1) := handle os (ReadFile (attrPath c offset "pull")) w in
    (match err with
     | Some _ => (LevelInactive, err)
     | None =>
         let v := strings.TrimSpace data in
         if String.eqb v "pull-down" then (LevelInactive, None)
         else if String.eqb v "pull-up" then (LevelActive, None)
         else (LevelInactive, Some (ErrorString ("unexpected pull value: " ++ v)))
     end, w1, [Ev (ReadFile (attrPath c offset "pull")) (data, err)]).
Proof.
  unfold Pull, attr. rewrite run_bind, run_readAttr. fold (attrPath c offset "pull").
  destruct (handle os (ReadFile (attrPath c offset "pull")) w) as [[data err] w1].
  destruct err as [e |]; simpl; [done |].
  destruct (String.eqb _ "pull-down"); [done |].
  by destruct (String.eqb _ "pull-up").
Qed.

End Pull.

(** C10. [SetPull] makes exactly one call, a write to the [pull] attribute
    of the line; the text written is "pull-up" exactly when the level is
    [LevelActive] and "pull-down" for every other integer, and what [SetPull]
    returns is the answer to that write: it has no error of its own. *)
Theorem C10_SetPull_writes_up_only_for_active :
  forall (os : OS) (w : world os) (c : Chip) (offset level : Z),
  exists text : string,
    (text = "pull-up" <-> level = LevelActive)
    /\ (text = "pull-down" <-> level <> LevelActive)
    /\ run os (SetPull c offset level) w
       = (let '(err, w1) := handle os (WriteFile (attrPath c offset "pull") text perm0666) w in
          (err, w1, [Ev (WriteFile (attrPath c offset "pull") text perm0666) err])).
Proof.
  intros os w c offset level.
  exists (if Z.eqb level LevelActive then "pull-up" else "pull-down").
  split; [| split; [| apply run_SetPull]].
  - destruct (Z.eqb_spec level LevelActive); split; intros; done.
  - destruct (Z.eqb_spec level LevelActive); split; intros; done.
Qed.

(** C6. When the [pull] attribute of the line is read without error, [Pull]
    looks at its text (as [readAttr] hands it over): "pull-down" gives
    [LevelInactive], "pull-up" gives [LevelActive], and every other text
    gives the error "unexpected pull value: " followed by the text. *)
Theorem C6_Pull_maps_attribute_text :
  forall (os : OS) (w w1 : world os) (c : Chip) (offset : Z) (data : string),
    handle os (ReadFile (attrPath c offset "pull")) w = ((data, None), w1) ->
    let v := strings.TrimSpace data in
    (v = "pull-down" -> result (run os (Pull c offset) w) = (LevelInactive, None))
    /\ (v = "pull-up" -> result (run os (Pull c offset) w) = (LevelActive, None))
    /\ (v <> "pull-down" -> v <> "pull-up" ->
        result (run os (Pull c offset) w)
        = (LevelInactive, Some (ErrorString ("unexpected pull value: " ++ v)))).
Proof.
  intros os w w1 c offset data H v. rewrite run_Pull, H. fold v. unfold result. simpl.
  repeat split.
  - intros ->. done.
  - intros ->. done.
  - intros Hd Hu.
    destruct (String.eqb_spec v "pull-down"); [done |].
    by destruct (String.eqb_spec v "pull-up").
Qed.

Lemma C6_witness :
  handle simfs.os (ReadFile (attrPath Scenario.chip0 3 "pull")) Scenario.activated
  = (("pull-down" ++ nl, None), Scenario.activated)
  /\ result (run simfs.os (Pull Scenario.chip0 3) Scenario.activated) = (LevelInactive, None).
Proof.
  assert (handle simfs.os (ReadFile (attrPath Scenario.chip0 3 "pull")) Scenario.activated
          = (("pull-down" ++ nl, None), Scenario.activated)) as H
    by (vm_compute; reflexivity).
  split; [exact H |].
  apply (C6_Pull_maps_attribute_text simfs.os _ _ Scenario.chip0 3 _ H).
  vm_compute; reflexivity.
Defined.

(** *** Set, get and toggle on a file that stores what is written *)

Section Storage.
Context (os : OS) (c : Chip) (offset : Z) (holds : world os -> string -> Prop).
Context (storage : PlainStorage os (attrPath c offset "pull") holds).

Lemma SetPull_stores (level : Z) (w : world os) (c0 : string) :
  holds w c0 ->
  exists w' t,
    run os (SetPull c offset level) w = (None, w', t)
    /\ holds w' (if Z.eqb level LevelActive then "pull-up" else "pull-down").
Proof.
  intros H. rewrite run_SetPull.
  destruct (storage_write _ _ _ storage w c0
              (if Z.eqb level LevelActive then "pull-up" else "pull-down") perm0666 H)
    as (w' & Hw & Hh).
  simpl. rewrite Hw. eauto.
Qed.

Lemma Pull_reads (w : world os) (level : Z) :
  holds w (if Z.eqb level LevelActive then "pull-up" else "pull-down") ->
  exists w' t,
    run os (Pull c offset) w
    = ((if Z.eqb level LevelActive then LevelActive else LevelInactive, None), w', t)
    /\ holds w' (if Z.eqb level LevelActive then "pull-up" else "pull-down").
Proof.
  intros H. rewrite run_Pull.
  destruct (storage_read _ _ _ storage w _ H) as (w' & Hw & Hh).
  rewrite Hw. destruct (Z.eqb level LevelActive); eauto.
Qed.

Lemma Toggle_inverts (w : world os) (level : Z) :
  holds w (if Z.eqb level LevelActive then "pull-up" else "pull-down") ->
  exists w' t,
    run os (Toggle c offset) w = (None, w', t)
    /\ holds w' (if Z.eqb level LevelActive then "pull-down" else "pull-up").
Proof.
  intros H. unfold Toggle.
  destruct (Pull_reads w level H) as (w1 & t1 & Hp & H1).
  destruct (Z.eqb level LevelActive) eqn:E.
  - destruct (SetPull_stores 0 w1 _ H1) as (w2 & t2 & Hs & H2).
    exists w2, (t1 ++ t2)%list. split; [| exact H2].
    by apply (run_bind_intro os _ _ _ _ _ _ _ _ _ Hp).
  - destruct (SetPull_stores 1 w1 _ H1) as (w2 & t2 & Hs & H2).
    exists w2, (t1 ++ t2)%list. split; [| exact H2].
    by apply (run_bind_intro os _ _ _ _ _ _ _ _ _ Hp).
Qed.

End Storage.

(** C5. On a line whose [pull] attribute stores what is written to it:
    [SetPull] to active and then [Pull] gives active; [SetPull] to inactive
    and then [Pull] gives inactive; [SetPull] to active, [Toggle], and then
    [Pull] gives inactive.  None of the calls reports an error. *)
Theorem C5_pull_round_trip_and_toggle :
  forall (os : OS) (c : Chip) (offset : Z)
         (holds : world os -> string -> Prop) (w : world os) (c0 : string),
    PlainStorage os (attrPath c offset "pull") holds ->
    holds w c0 ->
    result (run os (let* e := SetPull c offset LevelActive in
                    let* r := Pull c offset in Ret (e, r)) w)
    = (None, (LevelActive, None))
    /\ result (run os (let* e := SetPull c offset LevelInactive in
                       let* r := Pull c offset in Ret (e, r)) w)
       = (None, (LevelInactive, None))
    /\ result (run os (let* e1 := SetPull c offset LevelActive in
                       let* e2 := Toggle c offset in
                       let* r := Pull c offset in Ret (e1, e2, r)) w)
       = (None, None, (LevelInactive, None)).
Proof.
  intros os c offset holds w c0 storage H.
  destruct (SetPull_stores os c offset holds storage LevelActive w c0 H)
    as (wa & ta & Ha & Hha).
  destruct (Pull_reads os c offset holds storage wa LevelActive Hha)
    as (wa' & ta' & Hpa & _).
  destruct (SetPull_stores os c offset holds storage LevelInactive w c0 H)
    as (wi & ti & Hi & Hhi).
  destruct (Pull_reads os c offset holds storage wi LevelInactive Hhi)
    as (wi' & ti' & Hpi & _).
  destruct (Toggle_inverts os c offset holds storage wa LevelActive Hha)
    as (wt & tt & Ht & Hht).
  destruct (Pull_reads os c offset holds storage wt LevelInactive Hht)
    as (wt' & tt' & Hpt & _).
  unfold LevelActive, LevelInactive in *. simpl Z.eqb in *.
  repeat split.
  - rewrite run_bind, Ha. cbv beta. by rewrite run_bind, Hpa.
  - rewrite run_bind, Hi. cbv beta. by rewrite run_bind, Hpi.
  - rewrite run_bind, Ha. cbv beta. rewrite run_bind, Ht. cbv beta.
    by rewrite run_bind, Hpt.
Qed.

Lemma simfs_plain_storage (p : string) : PlainStorage simfs.os p (storesAt p).
Proof.
  split.
  - intros w c data perm (Hf & Hd & Hk).
    exists (simfs.withNodes w (<[p := simfs.File data]> (simfs.nodes w))).
    assert (String.eqb p "/" || String.eqb p "." = false) as Hp.
    { unfold simfs.lookupNode in Hf.
      by destruct (String.eqb p "/" || String.eqb p "."). }
    split.
    + simpl. unfold simfs.writeFile. by rewrite Hf, Hd, Hk.
    + repeat split.
      * unfold simfs.lookupNode. rewrite Hp. simpl. apply lookup_insert_eq.
      * unfold simfs.lookupNode in *. rewrite Hp in Hf.
        destruct (String.eqb (simfs.dirOf p) "/" || String.eqb (simfs.dirOf p) ".");
          [done |].
        simpl. rewrite lookup_insert_ne; [done |].
        intros E. rewrite <- E, Hf in Hd. done.
      * done.
  - intros w c (Hf & Hd & Hk). exists w. split; [| done].
    simpl. unfold simfs.readFile. by rewrite Hf.
Qed.

Lemma C5_witness :
  storesAt (attrPath Scenario.chip0 3 "pull") Scenario.activated ("pull-down" ++ nl)
  /\ result (run simfs.os (let* e1 := SetPull Scenario.chip0 3 LevelActive in
                         let* e2 := Toggle Scenario.chip0 3 in
                         let* r := Pull Scenario.chip0 3 in Ret (e1, e2, r))
               Scenario.activated)
     = (None, None, (LevelInactive, None)).
Proof.
  assert (storesAt (attrPath Scenario.chip0 3 "pull") Scenario.activated ("pull-down" ++ nl)) as H.
  { repeat split; vm_compute; reflexivity. }
  split; [exact H |].
  apply (C5_pull_round_trip_and_toggle simfs.os Scenario.chip0 3 _ Scenario.activated _
           (simfs_plain_storage _) H).
Defined.

(** ** Reading an attribute *)

Lemma string_app_cons (x : ascii) (a b : string) :
  String x a ++ b = String x (a ++ b).
Proof. reflexivity. Qed.

Lemma string_app_nil_l (a : string) : "" ++ a = a.
Proof. reflexivity. Qed.

Lemma string_app_assoc (a b c : string) : (a ++ b) ++ c = a ++ b ++ c.
Proof.
  induction a as [| x a IH]; [done |].
  by rewrite !string_app_cons, IH.
Qed.

Lemma string_app_nil_r (a : string) : a ++ "" = a.
Proof.
  induction a as [| x a IH]; [done |].
  by rewrite string_app_cons, IH.
Qed.

Lemma string_length_app (a b : string) :
  String.length (a ++ b) = (String.length a + String.length b)%nat.
Proof.
  induction a as [| x a IH]; [done |].
  rewrite string_app_cons. simpl. by rewrite IH.
Qed.

Lemma rev_append_app (s acc : string) :
  strings.rev_append s acc = strings.rev s ++ acc.
Proof.
  unfold strings.rev. revert acc.
  induction s as [| x s IH]; intros acc; simpl; [done |].
  by rewrite (IH (String x acc)), (IH (String x "")), string_app_assoc.
Qed.

Lemma rev_cons (x : ascii) (s : string) :
  strings.rev (String x s) = strings.rev s ++ String x "".
Proof. unfold strings.rev at 1. simpl. apply rev_append_app. Qed.

Lemma rev_app (a b : string) : strings.rev (a ++ b) = strings.rev b ++ strings.rev a.
Proof.
  induction a as [| x a IH].
  - by rewrite string_app_nil_l, string_app_nil_r.
  - by rewrite string_app_cons, !rev_cons, IH, string_app_assoc.
Qed.

Lemma rev_involutive (s : string) : strings.rev (strings.rev s) = s.
Proof.
  induction s as [| x s IH]; [done |].
  by rewrite rev_cons, rev_app, IH.
Qed.

Lemma Runs_app (isRune : string -> bool) (a b : string) :
  Runs isRune a -> Runs isRune b -> Runs isRune (a ++ b).
Proof.
  induction 1 as [| t s Ht Hs IH]; intros Hb; [done |].
  rewrite string_app_assoc. by constructor; [| apply IH].
Qed.

Lemma Runs_one (isRune : string -> bool) (t : string) :
  isRune t = true -> Runs isRune t.
Proof. intros H. rewrite <- (string_app_nil_r t). by repeat constructor. Qed.

Lemma string_length_ind (P : string -> Prop) :
  (forall s, (forall s', (String.length s' < String.length s)%nat -> P s') -> P s) ->
  forall s, P s.
Proof.
  intros step s. remember (String.length s) as n eqn:E. revert s E.
  induction n as [n IH] using lt_wf_ind. intros s ->.
  apply step. intros s' Hlt. by apply (IH (String.length s')).
Qed.

Section TrimFacts.
Variable sp1 : ascii -> bool.
Variable sp2 : ascii -> ascii -> bool.
Variable sp3 : ascii -> ascii -> ascii -> bool.

Local Abbreviation isRune := (strings.isRune sp1 sp2 sp3).
Local Abbreviation trimFront := (strings.trimFront sp1 sp2 sp3).

(** What is dropped is made of runes, and what is left is the rest. *)
Lemma trimFront_split (s : string) :
  exists lead, s = lead ++ trimFront s /\ Runs isRune lead.
Proof.
  induction s as [s IH] using string_length_ind.
  destruct s as [| a s1]; [exists ""; split; [done | constructor] |].
  simpl. destruct (sp1 a) eqn:E1.
  { destruct (IH s1) as (lead & Hs & Hl); [simpl; lia |].
    exists (String a "" ++ lead). split; [by rewrite string_app_assoc, <- Hs |].
    by constructor. }
  destruct s1 as [| b s2]; [exists ""; split; [done | constructor] |].
  destruct (sp2 a b) eqn:E2.
  { destruct (IH s2) as (lead & Hs & Hl); [simpl; lia |].
    exists (String a (String b "") ++ lead). split; [by rewrite string_app_assoc, <- Hs |].
    by constructor. }
  destruct s2 as [| c s3]; [exists ""; split; [done | constructor] |].
  destruct (sp3 a b c) eqn:E3.
  { destruct (IH s3) as (lead & Hs & Hl); [simpl; lia |].
    exists (String a (String b (String c "")) ++ lead).
    split; [by rewrite string_app_assoc, <- Hs |]. by constructor. }
  exists "". split; [done | constructor].
Qed.

(** What is left does not start with a rune. *)
Lemma trimFront_stops (s t rest : string) :
  isRune t = true -> trimFront s <> t ++ rest.
Proof.
  intros Ht. induction s as [s IH] using string_length_ind.
  destruct s as [| a s1]; simpl.
  { by destruct t. }
  destruct (sp1 a) eqn:E1; [apply IH; simpl; lia |].
  destruct s1 as [| b s2].
  { destruct t as [| x [| y t]]; [done | |].
    - rewrite string_app_cons. intros [= <- _]. simpl in Ht. congruence.
    - rewrite !string_app_cons. done. }
  destruct (sp2 a b) eqn:E2; [apply IH; simpl; lia |].
  destruct s2 as [| c s3].
  { destruct t as [| x [| y [| z t]]]; [done | | |].
    - rewrite string_app_cons. intros [= <- _]. simpl in Ht. congruence.
    - rewrite !string_app_cons. intros [= <- <- _]. simpl in Ht. congruence.
    - rewrite !string_app_cons. done. }
  destruct (sp3 a b c) eqn:E3; [apply IH; simpl; lia |].
  destruct t as [| x [| y [| z [| u t]]]]; [done | | | |].
  - rewrite string_app_cons. intros [= <- _]. simpl in Ht. congruence.
  - rewrite !string_app_cons. intros [= <- <- _]. simpl in Ht. congruence.
  - rewrite !string_app_cons. intros [= <- <- <- _]. simpl in Ht. congruence.
  - done.
Qed.

End TrimFacts.

Lemma rev_length (s : string) : String.length (strings.rev s) = String.length s.
Proof.
  induction s as [| x s IH]; [done |].
  rewrite rev_cons, string_length_app, IH. simpl. lia.
Qed.

Lemma isRune_length sp1 sp2 sp3 (t : string) :
  strings.isRune sp1 sp2 sp3 t = true -> (1 <= String.length t <= 3)%nat.
Proof. destruct t as [| a [| b [| c [| d t]]]]; simpl; intros; try done; lia. Qed.

Lemma isRune_rev (t : string) :
  strings.isRune strings.asciiSpace (fun a b => strings.space2 b a)
    (fun a b c => strings.space3 c b a) t
  = strings.isSpaceRune (strings.rev t).
Proof.
  destruct t as [| a [| b [| c [| d t]]]]; try done.
  simpl. symmetry. apply not_true_is_false. intros H.
  apply isRune_length in H. rewrite rev_length in H. simpl in H. lia.
Qed.

Lemma Runs_rev (l : string) :
  Runs (strings.isRune strings.asciiSpace (fun a b => strings.space2 b a)
          (fun a b c => strings.space3 c b a)) l ->
  Spaces (strings.rev l).
Proof.
  induction 1 as [| t s Ht Hs IH]; [constructor |].
  rewrite rev_app. apply Runs_app; [done |].
  apply Runs_one. by rewrite <- isRune_rev.
Qed.

(** [TrimSpace] cuts white space, and only white space, off both ends. *)
Lemma TrimSpace_spec (data : string) :
  exists lead trail,
    data = lead ++ strings.TrimSpace data ++ trail
    /\ Spaces lead /\ Spaces trail
    /\ (forall t rest, strings.isSpaceRune t = true -> strings.TrimSpace data <> t ++ rest)
    /\ (forall t rest, strings.isSpaceRune t = true -> strings.TrimSpace data <> rest ++ t).
Proof.
  unfold strings.TrimSpace, strings.trimRight.
  destruct (trimFront_split strings.asciiSpace strings.space2 strings.space3 data)
    as (lead & Hdata & Hlead).
  fold (strings.trimLeft data) in *.
  set (m := strings.trimLeft data) in *.
  destruct (trimFront_split strings.asciiSpace (fun a b => strings.space2 b a)
              (fun a b c => strings.space3 c b a) (strings.rev m))
    as (l' & Hm & Hl').
  set (x := strings.trimFront _ _ _ (strings.rev m)) in *.
  assert (m = strings.rev x ++ strings.rev l') as Hm'.
  { by rewrite <- rev_app, <- Hm, rev_involutive. }
  exists lead, (strings.rev l'). repeat split.
  - by rewrite <- Hm'.
  - done.
  - by apply Runs_rev.
  - intros t rest Ht E.
    apply (trimFront_stops strings.asciiSpace strings.space2 strings.space3
             data t (rest ++ strings.rev l') Ht).
    fold (strings.trimLeft data). fold m.
    by rewrite Hm', E, string_app_assoc.
  - intros t rest Ht E.
    apply (trimFront_stops strings.asciiSpace (fun a b => strings.space2 b a)
             (fun a b c => strings.space3 c b a)
             (strings.rev m) (strings.rev t) (strings.rev rest)).
    + by rewrite isRune_rev, rev_involutive.
    + fold x. by rewrite <- rev_app, <- E, rev_involutive.
Qed.

(** C8, as the code has it.  When the attribute file is read without error,
    [readAttr] returns the text between the white space at its two ends: the
    content is [lead ++ v ++ trail] with [lead] and [trail] white space only,
    [v] is returned, and [v] neither starts nor ends with a white space
    rune.  The bytes of [v] are those of the file, in place. *)
Theorem C8_readAttr_trims_both_ends :
  forall (os : OS) (w w1 : world os) (p a data : string),
    handle os (ReadFile (path.Join [p; a])) w = ((data, None), w1) ->
    exists lead v trail,
      result (run os (readAttr p a) w) = (v, None)
      /\ data = lead ++ v ++ trail
      /\ Spaces lead /\ Spaces trail
      /\ (forall t rest, strings.isSpaceRune t = true -> v <> t ++ rest)
      /\ (forall t rest, strings.isSpaceRune t = true -> v <> rest ++ t).
Proof.
  intros os w w1 p a data H.
  destruct (TrimSpace_spec data) as (lead & trail & Hd & Hl & Ht & Hs & He).
  exists lead, (strings.TrimSpace data), trail.
  rewrite run_readAttr, H. by repeat split.
Qed.

Lemma C8_witness :
  handle simfs.os (ReadFile (path.Join ["/d"; "a"])) Scenario.padded
  = ((" x" ++ nl, None), Scenario.padded)
  /\ exists lead v trail,
       result (run simfs.os (readAttr "/d" "a") Scenario.padded) = (v, None)
       /\ " x" ++ nl = lead ++ v ++ trail
       /\ Spaces lead /\ Spaces trail
       /\ (forall t rest, strings.isSpaceRune t = true -> v <> t ++ rest)
       /\ (forall t rest, strings.isSpaceRune t = true -> v <> rest ++ t).
Proof.
  assert (handle simfs.os (ReadFile (path.Join ["/d"; "a"])) Scenario.padded
          = ((" x" ++ nl, None), Scenario.padded)) as H
    by (vm_compute; reflexivity).
  split; [exact H |].
  exact (C8_readAttr_trims_both_ends simfs.os _ _ "/d" "a" _ H).
Defined.

(** C8 as stated fails: on a file holding " x" and a newline, [readAttr]
    returns "x", while the content with only its trailing white space
    removed is " x": the leading space is not preserved. *)
Lemma C8_leading_space_is_removed :
  result (run simfs.os (readAttr "/d" "a") Scenario.padded) = ("x", None)
  /\ trailingSpaceRemoved (" x" ++ nl) = " x"
  /\ ~ (forall (os : OS) (w w1 : world os) (p a data : string),
          handle os (ReadFile (path.Join [p; a])) w = ((data, None), w1) ->
          result (run os (readAttr p a) w) = (trailingSpaceRemoved data, None)).
Proof.
  split; [by vm_compute |]. split; [by vm_compute |].
  intros claim.
  specialize (claim simfs.os Scenario.padded Scenario.padded "/d" "a" (" x" ++ nl)).
  discriminate claim. by vm_compute.
Qed.

(** ** Activation under a name that is taken *)

Lemma Emits_bind {A B : Type} (P : Event -> Prop) (p : Prog A) (f : A -> Prog B) :
  Emits P p -> (forall a, Emits P (f a)) -> Emits P (bind p f).
Proof.
  intros Hp Hf. induction p as [a | R c k IH]; simpl; [apply Hf |].
  intros r. destruct (Hp r) as [Hc Hk]. split; [done | by apply IH].
Qed.

Lemma Emits_run {A : Type} (P : Event -> Prop) (os : OS) (p : Prog A) (w : world os) :
  Emits P p -> Forall P (trace (run os p w)).
Proof.
  revert w. induction p as [a | R c k IH]; intros w Hp; simpl.
  - constructor.
  - destruct (handle os c w) as [r w1]. destruct (Hp r) as [Hc Hk].
    specialize (IH r w1 Hk). destruct (run os (k r) w1) as [[a w2] t].
    by constructor.
Qed.

Lemma uniqueName_no_mutation : Emits (fun e => mutates e = false) uniqueName.
Proof.
  unfold uniqueName, appName. simpl.
  intros [str err]. split; [done |]. by destruct (isNil err); simpl.
Qed.

Lemma liveName_no_mutation (b : builder) :
  Emits (fun e => mutates e = false) (liveName b).
Proof.
  unfold liveName. destruct (String.eqb (name b) ""); [| done].
  apply uniqueName_no_mutation.
Qed.

Lemma configfsMountPoint_no_mutation :
  Emits (fun e => mutates e = false) configfsMountPoint.
Proof.
  unfold configfsMountPoint. simpl.
  intros [content err]. split; [done |].
  destruct (isNil err); [| done].
  destruct (List.find _ _); [done |]. simpl.
  intros err'. split; [done |]. by destruct (isNil err').
Qed.

Lemma findConfigfsPath_no_mutation :
  Emits (fun e => mutates e = false) findConfigfsPath.
Proof.
  assert (Emits (fun e => mutates e = false)
            (let* '(mnt, err) := configfsMountPoint in
             if isNil err then
               let configfs := path.Join [mnt; "gpio-sim"] in
               let* err := call (Stat configfs) in
               if isNil err then Ret (configfs, None)
               else Ret ("", Some (ErrorString "gpio-sim module not loaded"))
             else Ret ("", Some (ErrorString "gpio-sim module not loaded")))) as Hm.
  { apply Emits_bind; [apply configfsMountPoint_no_mutation |].
    intros [mnt err]. destruct (isNil err); [| done].
    simpl. intros err'. split; [done |]. by destruct (isNil err'). }
  unfold findConfigfsPath. simpl.
  intros e1. split; [done |]. destruct (isNil e1); [done |].
  intros e2. split; [done |]. destruct (isNil e2); [| exact Hm].
  intros e3. split; [done |]. destruct (isNil e3); [done | exact Hm].
Qed.

(** C4. Let the sim's name be [nm] (the builder's, or the generated one)
    and let the environment be resolved to [root].  If [root/nm] exists
    ([os.Stat] answers without error) then [live] returns the error
    "sim with name 'nm' already exists" right after that answer: the calls
    made are those that produced the name and the root and the [Stat]
    itself, and none of them creates, writes or removes a file or a
    directory. *)
Theorem C4_name_conflict_before_any_mutation :
  forall (os : OS) (w w1 w2 w3 : world os) (b : builder)
         (nm root : string) (t1 t2 : list Event),
    banks b <> [] ->
    run os (liveName b) w = (nm, w1, t1) ->
    run os findConfigfsPath w1 = ((root, None), w2, t2) ->
    handle os (Stat (path.Join [root; nm])) w2 = (None, w3) ->
    run os (live b) w
    = ((None, Some (ErrorString ("sim with name '" ++ nm ++ "' already exists"))),
       w3, (t1 ++ t2 ++ [Ev (Stat (path.Join [root; nm])) None])%list)
    /\ Forall (fun e => mutates e = false)
         (t1 ++ t2 ++ [Ev (Stat (path.Join [root; nm])) None])%list.
Proof.
  intros os w w1 w2 w3 b nm root t1 t2 Hb Hname Hroot Hstat. split.
  - unfold live. destruct (banks b) as [| k ks] eqn:E; [done |].
    change (Nat.eqb (length (k :: ks)) 0) with false. cbv iota.
    rewrite run_bind, Hname. cbv beta iota.
    rewrite run_bind, Hroot. cbv beta iota. unfold isNil at 1.
    rewrite run_bind, run_call, Hstat. done.
  - apply Forall_app. split.
    + pose proof (Emits_run _ os (liveName b) w (liveName_no_mutation b)) as H.
      by rewrite Hname in H.
    + apply Forall_app. split.
      * pose proof (Emits_run _ os findConfigfsPath w1 findConfigfsPath_no_mutation) as H.
        by rewrite Hroot in H.
      * by repeat constructor.
Qed.

Lemma C4_witness :
  run simfs.os (live Scenario.theBuilder) Scenario.activated
  = ((None, Some (ErrorString "sim with name 'gpiosim_test' already exists")),
     Scenario.activated,
     [Ev (Stat "/sys/kernel/config/gpio-sim") None;
      Ev (Stat "/sys/kernel/config/gpio-sim/gpiosim_test") None]).
Proof.
  refine (proj1 (C4_name_conflict_before_any_mutation simfs.os
            Scenario.activated Scenario.activated Scenario.activated Scenario.activated
            Scenario.theBuilder "gpiosim_test" "/sys/kernel/config/gpio-sim"
            [] [Ev (Stat "/sys/kernel/config/gpio-sim") None] _ _ _ _)).
  - discriminate.
  - vm_compute; reflexivity.
  - vm_compute; reflexivity.
  - vm_compute; reflexivity.
Defined.

(** ** The chips of a sim that went live *)

Lemma cfg_alter (f : Chip -> Chip) (i : nat) (l : list Chip) :
  (forall c, cfg (f c) = cfg c) -> List.map cfg (alter f i l) = List.map cfg l.
Proof.
  intros Hf. revert i. induction l as [| c l IH]; intros [| i]; simpl; try done.
  - by rewrite Hf.
  - f_equal. apply IH.
Qed.

Lemma Returns_Close_then {A : Type} (s : Sim) (a b : A) :
  Returns (Close s ;; Ret a) b -> b = a.
Proof.
  intros H. apply Returns_bind_inv in H as (s' & _ & H). exact H.
Qed.

(** The loop of [live] over the chips leaves the configuration of every
    chip as it was. *)
Lemma liveChips_cfg (dev : string) (idx : list nat) (s0 s : Sim) (e : error) :
  Returns (liveChips dev idx s0) (Some s, e) ->
  List.map cfg (Chips s) = List.map cfg (Chips s0).
Proof.
  revert s0. induction idx as [| i idx IH]; intros s0 H.
  - simpl in H. by injection H as -> _.
  - cbn [liveChips] in H.
    apply Returns_bind_inv in H as ([chip err] & _ & H).
    destruct (isNil err); [| by apply Returns_Close_then in H].
    apply Returns_bind_inv in H as ([mode err'] & _ & H).
    destruct (isNil err'); [| by simpl in H].
    destruct (negb _); [by simpl in H |].
    apply IH in H. rewrite H. cbn [setChip Chips].
    by rewrite !cfg_alter.
Qed.

Lemma live_cfg (b : builder) (s : Sim) (e : error) :
  Returns (live b) (Some s, e) ->
  banks b <> [] /\ List.map cfg (Chips s) = banks b.
Proof.
  unfold live. intros H.
  destruct (banks b) as [| k ks] eqn:E; [by simpl in H |].
  split; [done |]. rewrite <- E in *. clear E k ks.
  destruct (Nat.eqb (length (banks b)) 0); [by simpl in H |].
  apply Returns_bind_inv in H as (nm & _ & H).
  apply Returns_bind_inv in H as ([root err] & _ & H).
  destruct (isNil err); [| by simpl in H].
  apply Returns_bind_inv in H as (e1 & _ & H).
  destruct (isNil e1); [by simpl in H |].
  apply Returns_bind_inv in H as (e2 & _ & H).
  apply Returns_bind_inv in H as (e3 & _ & H).
  destruct (isNil e3); [| by apply Returns_Close_then in H].
  apply Returns_bind_inv in H as ([dev e4] & _ & H).
  destruct (isNil e4); [| by apply Returns_Close_then in H].
  apply liveChips_cfg in H. rewrite H. cbn [Chips].
  rewrite map_map. apply map_id.
Qed.

(** C9. When [NewSim] succeeds, there was at least one bank among the
    options, and the configurations of the chips of the sim are the banks of
    the options, one chip for each bank, in the order of the options: chip
    [i] reports the [NumLines] and the [Label] of bank [i]. *)
Theorem C9_chips_keep_the_banks :
  forall (os : OS) (w : world os) (options : list NewSimOption) (s : Sim),
    result (run os (NewSim options) w) = (Some s, None) ->
    banksOf options <> []
    /\ List.map Config (Chips s) = banksOf options
    /\ (forall (i : nat) (k : Bank),
          banksOf options !! i = Some k ->
          exists c, Chips s !! i = Some c
                    /\ NumLines (Config c) = NumLines k
                    /\ Label (Config c) = Label k).
Proof.
  intros os w options s H.
  pose proof (run_Returns os (NewSim options) w) as R. rewrite H in R.
  unfold NewSim in R. apply live_cfg in R as [Hne Hcfg].
  rewrite banks_fold_applySimOption in Hne, Hcfg. simpl in Hne, Hcfg.
  split; [done |]. split; [done |].
  intros i k Hk. rewrite <- Hcfg in Hk.
  change (List.map cfg (Chips s)) with (cfg <$> Chips s) in Hk.
  apply list_lookup_fmap_Some in Hk as (c & -> & Hc).
  by exists c.
Qed.

Lemma C9_witness :
  result (run simfs.os (NewSim Scenario.options) Scenario.fresh) = (Some Scenario.theSim, None)
  /\ List.map Config (Chips Scenario.theSim) = [Scenario.left; Scenario.right].
Proof.
  assert (result (run simfs.os (NewSim Scenario.options) Scenario.fresh)
          = (Some Scenario.theSim, None)) as H by (vm_compute; reflexivity).
  split; [exact H |].
  exact (proj1 (proj2 (C9_chips_keep_the_banks simfs.os Scenario.fresh Scenario.options
                         Scenario.theSim H))).
Defined.

(** ** What activation writes for a hog *)

Lemma occursIn_app_l (l t1 t2 : list Event) : occursIn l t1 -> occursIn l (t1 ++ t2)%list.
Proof.
  intros (pre & post & ->). exists pre, (post ++ t2)%list.
  by rewrite <- !app_assoc.
Qed.

Lemma occursIn_app_r (l t1 t2 : list Event) : occursIn l t2 -> occursIn l (t1 ++ t2)%list.
Proof.
  intros (pre & post & ->). exists (t1 ++ pre)%list, post.
  by rewrite <- !app_assoc.
Qed.

Lemma occursIn_refl (l : list Event) : occursIn l l.
Proof. exists [], []. by rewrite app_nil_r. Qed.

Section Setup.
Context (os : OS).

Lemma orReturn_ok_inv (p q : Prog error) (w w' : world os) (t : list Event) :
  run os (p ;;! q) w = (None, w', t) ->
  exists w1 t1 t2,
    run os p w = (None, w1, t1) /\ run os q w1 = (None, w', t2) /\ t = (t1 ++ t2)%list.
Proof.
  unfold orReturn. intros H.
  apply run_bind_inv in H as (err & w1 & t1 & t2 & Hp & Hq & ->).
  destruct err as [e |]; [by simpl in Hq |].
  by exists w1, t1, t2.
Qed.

Lemma forRange_ok_inv {X : Type} (l : list X) (body : X -> Prog error)
    (w w' : world os) (t : list Event) (x : X) :
  run os (forRange l body) w = (None, w', t) ->
  x ∈ l ->
  exists wa wb tx, run os (body x) wa = (None, wb, tx) /\ occursIn tx t.
Proof.
  revert w t. induction l as [| y l IH]; intros w t H Hx.
  - by apply elem_of_nil in Hx.
  - cbn [forRange] in H.
    apply orReturn_ok_inv in H as (w1 & t1 & t2 & Hy & Hl & ->).
    apply elem_of_cons in Hx as [-> | Hx].
    + exists w, w1, t1. split; [done |]. apply occursIn_app_l, occursIn_refl.
    + destruct (IH w1 t2 Hl Hx) as (wa & wb & tx & Hb & Ho).
      exists wa, wb, tx. split; [done |]. by apply occursIn_app_r.
Qed.

Lemma call_ok_inv (c : Call error) (w w' : world os) (t : list Event) :
  run os (call c) w = (None, w', t) -> t = [Ev c None].
Proof.
  rewrite run_call. destruct (handle os c w) as [err w1]. by intros [= -> _ <-].
Qed.

Lemma setupHog_ok_inv (bankPath : string) (oh : Z * Hog) (w w' : world os) (t : list Event) :
  run os (setupHog bankPath oh) w = (None, w', t) ->
  t = hogCalls bankPath oh.1 oh.2.
Proof.
  unfold setupHog, writeAttr. intros H.
  apply orReturn_ok_inv in H as (w1 & t1 & t' & H1 & H & ->).
  apply orReturn_ok_inv in H as (w2 & t2 & t3 & H2 & H3 & ->).
  apply call_ok_inv in H1 as ->. apply call_ok_inv in H2 as ->.
  by apply call_ok_inv in H3 as ->.
Qed.

Lemma setupBank_ok_inv (s : Sim) (ic : Z * Chip) (w w' : world os) (t : list Event)
    (o : Z) (h : Hog) :
  run os (setupBank s ic) w = (None, w', t) ->
  (o, h) ∈ Hogs (cfg ic.2) ->
  occursIn (hogCalls (bankPathOf s ic.1) o h) t.
Proof.
  unfold setupBank. intros H Hh.
  apply orReturn_ok_inv in H as (w1 & t1 & ta & _ & H & ->). apply occursIn_app_r.
  apply orReturn_ok_inv in H as (w2 & t2 & tb & _ & H & ->). apply occursIn_app_r.
  apply orReturn_ok_inv in H as (w3 & t3 & tc & _ & H & ->). apply occursIn_app_r.
  apply orReturn_ok_inv in H as (w4 & t4 & td & _ & H & ->). apply occursIn_app_r.
  destruct (forRange_ok_inv _ _ _ _ _ _ H Hh) as (wa & wb & tx & Hb & Ho).
  by apply setupHog_ok_inv in Hb as ->.
Qed.

Lemma elem_of_indexedFrom {X : Type} (l : list X) (k : Z) (i : nat) (x : X) :
  l !! i = Some x -> (k + Z.of_nat i, x) ∈ indexedFrom k l.
Proof.
  revert k i. induction l as [| y l IH]; intros k [| i] H; try done.
  - simpl in H. injection H as ->. cbn [indexedFrom].
    replace (k + Z.of_nat 0) with k by lia. apply list_elem_of_here.
  - simpl in H. cbn [indexedFrom]. apply list_elem_of_further.
    replace (k + Z.of_nat (S i)) with ((k + 1) + Z.of_nat i) by lia.
    by apply IH.
Qed.

Lemma setupConfigfs_ok_inv (s : Sim) (w w' : world os) (t : list Event)
    (i : nat) (c : Chip) (o : Z) (h : Hog) :
  run os (setupConfigfs s) w = (None, w', t) ->
  Chips s !! i = Some c ->
  (o, h) ∈ Hogs (cfg c) ->
  occursIn (hogCalls (bankPathOf s (Z.of_nat i)) o h) t.
Proof.
  unfold setupConfigfs. intros H Hc Hh.
  pose proof (elem_of_indexedFrom (Chips s) 0 i c Hc) as Hi. rewrite Z.add_0_l in Hi.
  destruct (forRange_ok_inv _ _ _ _ _ _ H Hi) as (wa & wb & tx & Hb & Ho).
  destruct Ho as (pre & post & ->).
  destruct (setupBank_ok_inv s (Z.of_nat i, c) wa wb tx o h Hb Hh) as (pre' & post' & ->).
  exists (pre ++ pre')%list, (post' ++ post)%list. by rewrite <- !app_assoc.
Qed.

End Setup.

Lemma run_Returns_eq {A : Type} (os : OS) (p : Prog A) (w w' : world os) (a : A) (t : list Event) :
  run os p w = (a, w', t) -> Returns p a.
Proof. intros H. pose proof (run_Returns os p w) as R. by rewrite H in R. Qed.

(** The loop of [live] over the chips leaves the name and the configfs
    path of the sim as they were. *)
Lemma liveChips_same_sim (dev : string) (idx : list nat) (s0 s : Sim) (e : error) :
  Returns (liveChips dev idx s0) (Some s, e) ->
  Name s = Name s0 /\ configfsPath s = configfsPath s0.
Proof.
  revert s0. induction idx as [| i idx IH]; intros s0 H.
  - simpl in H. by injection H as -> _.
  - cbn [liveChips] in H.
    apply Returns_bind_inv in H as ([chip err] & _ & H).
    destruct (isNil err); [| by apply Returns_Close_then in H].
    apply Returns_bind_inv in H as ([mode err'] & _ & H).
    destruct (isNil err'); [| by simpl in H].
    destruct (negb _); [by simpl in H |].
    by apply IH in H.
Qed.

(** A run of [live] that returns a sim has run [setupConfigfs] to the end
    on that sim's name and path and on the chips made from the banks. *)
Lemma live_ok_inv (os : OS) (b : builder) (w w' : world os) (t : list Event)
    (s : Sim) (e : error) :
  run os (live b) w = ((Some s, e), w', t) ->
  exists wa wb ts,
    run os (setupConfigfs {| Name := Name s; Chips := List.map newChip (banks b);
                             configfsPath := configfsPath s |}) wa = (None, wb, ts)
    /\ occursIn ts t.
Proof.
  unfold live. intros H.
  destruct (Nat.eqb (length (banks b)) 0); [by simpl in H |].
  apply run_bind_inv in H as (nm & w1 & t1 & t1' & _ & H & ->).
  apply run_bind_inv in H as ([root err] & w2 & t2 & t2' & _ & H & ->).
  destruct (isNil err); [| by simpl in H].
  apply run_bind_inv in H as (e1 & w3 & t3 & t3' & _ & H & ->).
  destruct (isNil e1); [by simpl in H |].
  apply run_bind_inv in H as (e2 & w4 & t4 & t4' & Hsetup & H & ->).
  apply run_bind_inv in H as (e3 & w5 & t5 & t5' & Hlive & H & ->).
  destruct (isNil e3) eqn:E3.
  - assert (e2 = None) as ->.
    { destruct e2 as [x |]; [| done]. simpl in Hlive. injection Hlive as <- _ _. done. }
    apply run_bind_inv in H as ([dev e4] & w6 & t6 & t6' & _ & H & ->).
    destruct (isNil e4).
    + apply run_Returns_eq, liveChips_same_sim in H as [-> ->]. cbn [Name configfsPath].
      exists w3, w4, t4. split; [done |].
      do 3 apply occursIn_app_r. apply occursIn_app_l, occursIn_refl.
    + by apply run_Returns_eq, Returns_Close_then in H.
  - by apply run_Returns_eq, Returns_Close_then in H.
Qed.

(** C7. In every activation that succeeds, for every bank [k] (the [i]-th
    of the options) and every hog [h] of a line [o] of that bank, the calls
    made contain, one after the other and each answered without error: the
    creation of the directory [bank<i>/line<o>/hog], the write of the
    consumer to its [name], and the write of the direction to its
    [direction].  The direction text is "output-low" for
    [HogDirectionOutputLow], "output-high" for [HogDirectionOutputHigh] and
    "input" for every other value. *)
Theorem C7_hog_calls_and_direction_text :
  (forall (os : OS) (w w' : world os) (options : list NewSimOption) (s : Sim)
          (t : list Event) (i : nat) (k : Bank) (o : Z) (h : Hog),
      run os (NewSim options) w = ((Some s, None), w', t) ->
      banksOf options !! i = Some k ->
      (o, h) ∈ Hogs k ->
      occursIn (hogCalls (bankPathOf s (Z.of_nat i)) o h) t)
  /\ hogDirectionToString HogDirectionOutputLow = "output-low"
  /\ hogDirectionToString HogDirectionOutputHigh = "output-high"
  /\ (forall d : Z, d <> HogDirectionOutputLow -> d <> HogDirectionOutputHigh ->
                    hogDirectionToString d = "input").
Proof.
  split; [| split; [done | split; [done |]]].
  - intros os w w' options s t i k o h H Hk Hh.
    unfold NewSim in H. apply live_ok_inv in H as (wa & wb & ts & Hsetup & Hts).
    rewrite banks_fold_applySimOption in Hsetup. simpl in Hsetup.
    destruct Hts as (pre & post & ->).
    assert (List.map newChip (banksOf options) !! i = Some (newChip k)) as Hc.
    { change (List.map newChip (banksOf options)) with (newChip <$> banksOf options).
      by rewrite list_lookup_fmap, Hk. }
    destruct (setupConfigfs_ok_inv os _ wa wb ts i (newChip k) o h Hsetup Hc Hh)
      as (pre' & post' & ->).
    exists (pre ++ pre')%list, (post' ++ post)%list. by rewrite <- !app_assoc.
  - intros d Hl Hh. unfold hogDirectionToString.
    destruct (Z.eqb_spec d HogDirectionOutputLow); [done |].
    by destruct (Z.eqb_spec d HogDirectionOutputHigh).
Qed.

Lemma C7_witness :
  run simfs.os (NewSim Scenario.options) Scenario.fresh
  = ((Some Scenario.theSim, None), Scenario.activated,
     trace (run simfs.os (NewSim Scenario.options) Scenario.fresh))
  /\ occursIn
       (hogCalls "/sys/kernel/config/gpio-sim/gpiosim_test/bank1" 9
          {| Consumer := "piggy"; Direction := HogDirectionInput |})
       (trace (run simfs.os (NewSim Scenario.options) Scenario.fresh)).
Proof.
  assert (run simfs.os (NewSim Scenario.options) Scenario.fresh
          = ((Some Scenario.theSim, None), Scenario.activated,
             trace (run simfs.os (NewSim Scenario.options) Scenario.fresh))) as H
    by (vm_compute; reflexivity).
  split; [exact H |].
  refine (proj1 C7_hog_calls_and_direction_text simfs.os _ _ Scenario.options
            Scenario.theSim _ 1%nat Scenario.right 9
            {| Consumer := "piggy"; Direction := HogDirectionInput |} H _ _).
  - vm_compute; reflexivity.
  - vm_compute. apply list_elem_of_further, list_elem_of_here.
Defined.

(** ** Failures of activation after the sim went live *)

(** On every system: when the device path of a chip cannot be examined, or
    is a symbolic link, the loop of [live] returns the error after the
    [Lstat] call, and makes no call after it. *)
Lemma liveChips_masked_returns_at_once (os : OS) (dev : string) (i : nat) (idx : list nat)
    (s : Sim) (w w1 w2 : world os) (data : string) (mode : Z) (err : error) :
  handle os (ReadFile (path.Join [bankPathOf s (Z.of_nat i); "chip_name"])) w
  = ((data, None), w1) ->
  handle os (Lstat (path.Join ["/dev"; strings.TrimSpace data])) w1 = ((mode, err), w2) ->
  err <> None \/ Z.land mode ModeSymlink <> 0 ->
  exists e,
    run os (liveChips dev (i :: idx) s) w
    = ((None, Some e), w2,
       [Ev (ReadFile (path.Join [bankPathOf s (Z.of_nat i); "chip_name"])) (data, None);
        Ev (Lstat (path.Join ["/dev"; strings.TrimSpace data])) (mode, err)]).
Proof.
  intros Hread Hlstat Hbad. cbn [liveChips].
  rewrite run_bind, run_readAttr, Hread. cbn [isNil].
  rewrite run_bind, run_call, Hlstat.
  destruct err as [e |]; cbn [isNil].
  - by exists e.
  - destruct Hbad as [Hbad | Hbad]; [done |].
    destruct (Z.eqb_spec (Z.land mode ModeSymlink) 0) as [E | E]; [done |].
    cbn [negb]. eauto.
Qed.

(** The neighbouring failures do call [Close] before they return: a chip
    name that cannot be read back, ... *)
Lemma liveChips_read_failure_closes (os : OS) (dev : string) (i : nat) (idx : list nat)
    (s s' : Sim) (w w1 w2 : world os) (data : string) (e : Err) (t : list Event) :
  handle os (ReadFile (path.Join [bankPathOf s (Z.of_nat i); "chip_name"])) w
  = ((data, Some e), w1) ->
  run os (Close s) w1 = (s', w2, t) ->
  run os (liveChips dev (i :: idx) s) w
  = ((None, Some e), w2,
     Ev (ReadFile (path.Join [bankPathOf s (Z.of_nat i); "chip_name"])) (data, Some e) :: t).
Proof.
  intros Hread Hclose. cbn [liveChips].
  rewrite run_bind, run_readAttr, Hread. cbn [isNil].
  rewrite run_bind, Hclose. simpl. by rewrite app_nil_r.
Qed.

(** ... and a failure while the tree is built. *)
Lemma live_setup_failure_closes (os : OS) (b : builder) (w w1 w2 w3 w4 w5 : world os)
    (nm root : string) (t1 t2 t4 t5 : list Event) (e0 e : Err) (s' : Sim) :
  banks b <> [] ->
  run os (liveName b) w = (nm, w1, t1) ->
  run os findConfigfsPath w1 = ((root, None), w2, t2) ->
  handle os (Stat (path.Join [root; nm])) w2 = (Some e0, w3) ->
  run os (setupConfigfs {| Name := nm; Chips := List.map newChip (banks b);
                           configfsPath := path.Join [root; nm] |}) w3
  = (Some e, w4, t4) ->
  run os (Close {| Name := nm; Chips := List.map newChip (banks b);
                   configfsPath := path.Join [root; nm] |}) w4 = (s', w5, t5) ->
  run os (live b) w
  = ((None, Some e), w5,
     (t1 ++ t2 ++ [Ev (Stat (path.Join [root; nm])) (Some e0)] ++ t4 ++ t5)%list).
Proof.
  intros Hb Hname Hroot Hstat Hsetup Hclose.
  unfold live. destruct (banks b) as [| k ks] eqn:E; [done |].
  change (Nat.eqb (length (k :: ks)) 0) with false. cbv iota.
  rewrite run_bind, Hname. cbv beta iota.
  rewrite run_bind, Hroot. cbv beta iota. unfold isNil at 1.
  rewrite run_bind, run_call, Hstat. cbv beta iota. unfold isNil at 1.
  rewrite run_bind, Hsetup. cbv beta iota. unfold isNil at 1.
  rewrite run_bind. cbn [run]. unfold isNil at 1.
  rewrite run_bind, Hclose. cbn [run]. by rewrite !app_nil_r.
Qed.

(** C1, at an input where the code does otherwise: a symbolic link sits at
    /dev/gpiochip0 when the sim of [TestNewSim] is activated.  [NewSim]
    returns the error of the symlink check; among its calls there is neither
    the write of "0" to [live] nor a removal, that is, no teardown; and the
    system it leaves has the sim live, with its tree in place. *)
Theorem C1_symlink_failure_skips_teardown :
  result (run simfs.os (NewSim Scenario.options) Scenario.masked)
  = (None, Some (ErrorString
       "A symlink (/dev/gpiochip0) is masking GPIO device gpiochip0"))
  /\ existsb (isTeardownCall Scenario.cfgp)
       (trace (run simfs.os (NewSim Scenario.options) Scenario.masked)) = false
  /\ simfs.nodes (final (run simfs.os (NewSim Scenario.options) Scenario.masked))
       !! "/sys/kernel/config/gpio-sim/gpiosim_test/live" = Some (simfs.File "1")
  /\ simfs.nodes (final (run simfs.os (NewSim Scenario.options) Scenario.masked))
       !! "/sys/kernel/config/gpio-sim/gpiosim_test/bank1/line9/hog" = Some simfs.Dir
  /\ simfs.nodes (final (run simfs.os (NewSim Scenario.options) Scenario.masked))
       !! "/dev/gpiochip1" = Some simfs.CharDevice.
Proof. repeat split; vm_compute; reflexivity. Qed.

(** ** Teardown *)

(** C2, where the code does otherwise.  On every system: when the write of
    "0" to [live] is answered with an error, [cleanupConfigfs] returns that
    error and [Close] returns, after that one call: no bank directory is
    looked at and nothing is removed. *)
Theorem C2_teardown_stops_when_live_write_fails :
  forall (os : OS) (w w1 : world os) (s : Sim) (e : Err),
    handle os (WriteFile (path.Join [configfsPath s; "live"]) "0" perm0666) w = (Some e, w1) ->
    run os (cleanupConfigfs s) w
    = (Some e, w1, [Ev (WriteFile (path.Join [configfsPath s; "live"]) "0" perm0666) (Some e)])
    /\ run os (Close s) w
       = ({| Name := Name s; Chips := []; configfsPath := configfsPath s |}, w1,
          [Ev (WriteFile (path.Join [configfsPath s; "live"]) "0" perm0666) (Some e)]).
Proof.
  intros os w w1 s e H.
  assert (run os (cleanupConfigfs s) w
          = (Some e, w1,
             [Ev (WriteFile (path.Join [configfsPath s; "live"]) "0" perm0666) (Some e)])) as Hc.
  { unfold cleanupConfigfs. by rewrite run_bind, run_writeAttr, H. }
  split; [done |]. unfold Close. by rewrite run_bind, Hc.
Qed.

Lemma C2_witness :
  handle simfs.os (WriteFile (path.Join [configfsPath Scenario.sim0; "live"]) "0" perm0666)
    Scenario.halfBuilt
  = (Some (PathError "write" "/sys/kernel/config/gpio-sim/gpiosim_test/live" EPERM),
     Scenario.halfBuilt)
  /\ final (run simfs.os (Close Scenario.sim0) Scenario.halfBuilt) = Scenario.halfBuilt
  /\ simfs.nodes Scenario.halfBuilt !! "/sys/kernel/config/gpio-sim/gpiosim_test/bank0"
     = Some simfs.Dir.
Proof.
  assert (handle simfs.os
            (WriteFile (path.Join [configfsPath Scenario.sim0; "live"]) "0" perm0666)
            Scenario.halfBuilt
          = (Some (PathError "write" "/sys/kernel/config/gpio-sim/gpiosim_test/live" EPERM),
             Scenario.halfBuilt)) as H by (vm_compute; reflexivity).
  split; [exact H |]. split; [| vm_compute; reflexivity].
  by rewrite (proj2 (C2_teardown_stops_when_live_write_fails simfs.os _ _ Scenario.sim0 _ H)).
Defined.

(** The same on a sim whose configfs path is gone: [Close] makes the one
    write, which fails, and does not go on to the banks or to the path. *)
Example Close_on_absent_path :
  trace (run simfs.os (Close Scenario.theSim) Scenario.fresh)
  = [Ev (WriteFile "/sys/kernel/config/gpio-sim/gpiosim_test/live" "0" perm0666)
       (Some (PathError "open" "/sys/kernel/config/gpio-sim/gpiosim_test/live" ENOENT))].
Proof. vm_compute; reflexivity. Qed.

(** A second [Close] finds the sim without chips and its path gone; it
    changes nothing, and [Close] has no error to return. *)
Example second_Close_changes_nothing :
  let r1 := run simfs.os (Close Scenario.theSim) Scenario.activated in
  let r2 := run simfs.os (Close (result r1)) (final r1) in
  final r1 = Scenario.fresh /\ final r2 = final r1 /\ Chips (result r2) = [].
Proof. repeat split; vm_compute; reflexivity. Qed.

(** * Further properties of the package *)

(** ** Level, and the failures of Pull, Level and Toggle *)

Section Line.
Context (os : OS).

Lemma run_Level (c : Chip) (offset : Z) (w : world os) :
  run os (Level c offset) w =
    let '((data, err), w1) := handle os (ReadFile (attrPath c offset "value")) w in
    (match err with
     | Some _ => (LevelInactive, err)
     | None =>
         let v := strings.TrimSpace data in
         if String.eqb v "0" then (LevelInactive, None)
         else if String.eqb v "1" then (LevelActive, None)
         else (LevelInactive, Some (ErrorString ("unexpected level value: " ++ v)))
     end, w1, [Ev (ReadFile (attrPath c offset "value")) (data, err)]).
Proof.
  unfold Level, attr. rewrite run_bind, run_readAttr. fold (attrPath c offset "value").
  destruct (handle os (ReadFile (attrPath c offset "value")) w) as [[data err] w1].
  destruct err as [e |]; simpl; [done |].
  destruct (String.eqb _ "0"); [done |].
  by destruct (String.eqb _ "1").
Qed.

End Line.

(** X1. When the [value] attribute of the line is read without error,
    [Level] gives [LevelInactive] for the text "0", [LevelActive] for "1",
    and the error "unexpected level value: " followed by the text for every
    other text; the read is the only call it makes. *)
Theorem X1_Level_maps_attribute_text :
  forall (os : OS) (w w1 : world os) (c : Chip) (offset : Z) (data : string),
    handle os (ReadFile (attrPath c offset "value")) w = ((data, None), w1) ->
    let v := strings.TrimSpace data in
    (v = "0" -> result (run os (Level c offset) w) = (LevelInactive, None))
    /\ (v = "1" -> result (run os (Level c offset) w) = (LevelActive, None))
    /\ (v <> "0" -> v <> "1" ->
        result (run os (Level c offset) w)
        = (LevelInactive, Some (ErrorString ("unexpected level value: " ++ v))))
    /\ trace (run os (Level c offset) w)
       = [Ev (ReadFile (attrPath c offset "value")) (data, None)].
Proof.
  intros os w w1 c offset data H v. rewrite run_Level, H. fold v.
  unfold result, trace. simpl. repeat split.
  - by intros ->.
  - by intros ->.
  - intros H0 H1. destruct (String.eqb_spec v "0"); [done |].
    by destruct (String.eqb_spec v "1").
Qed.

Lemma X1_witness :
  handle simfs.os (ReadFile (attrPath Scenario.chip0 3 "value")) Scenario.activated
  = (("0" ++ nl, None), Scenario.activated)
  /\ result (run simfs.os (Level Scenario.chip0 3) Scenario.activated) = (LevelInactive, None).
Proof.
  assert (handle simfs.os (ReadFile (attrPath Scenario.chip0 3 "value")) Scenario.activated
          = (("0" ++ nl, None), Scenario.activated)) as H
    by (vm_compute; reflexivity).
  split; [exact H |].
  apply (X1_Level_maps_attribute_text simfs.os _ _ Scenario.chip0 3 _ H).
  vm_compute; reflexivity.
Defined.

(** X2. When the [pull] attribute cannot be read, [Pull] returns the error
    of the read and [Toggle] returns it too, after that one call: [Toggle]
    writes nothing.  The same holds for [Level] and the [value] attribute. *)
Theorem X2_read_failure_is_returned_and_nothing_written :
  forall (os : OS) (w w1 : world os) (c : Chip) (offset : Z) (nm data : string) (e : Err),
    handle os (ReadFile (attrPath c offset nm)) w = ((data, Some e), w1) ->
    (nm = "pull" ->
     run os (Pull c offset) w
     = ((LevelInactive, Some e), w1,
        [Ev (ReadFile (attrPath c offset "pull")) (data, Some e)])
     /\ run os (Toggle c offset) w
        = (Some e, w1, [Ev (ReadFile (attrPath c offset "pull")) (data, Some e)]))
    /\ (nm = "value" ->
        run os (Level c offset) w
        = ((LevelInactive, Some e), w1,
           [Ev (ReadFile (attrPath c offset "value")) (data, Some e)])).
Proof.
  intros os w w1 c offset nm data e H. split; intros ->.
  - assert (run os (Pull c offset) w
            = ((LevelInactive, Some e), w1,
               [Ev (ReadFile (attrPath c offset "pull")) (data, Some e)])) as HP
      by (by rewrite run_Pull, H).
    split; [done |]. unfold Toggle. by rewrite run_bind, HP.
  - by rewrite run_Level, H.
Qed.

Lemma X2_witness :
  run simfs.os (Toggle Scenario.chip0 7) Scenario.activated
  = (Some (PathError "open"
             "/sys/devices/platform/gpio-sim.0/gpiochip0/sim_gpio7/pull" ENOENT),
     Scenario.activated,
     [Ev (ReadFile "/sys/devices/platform/gpio-sim.0/gpiochip0/sim_gpio7/pull")
         ("", Some (PathError "open"
                      "/sys/devices/platform/gpio-sim.0/gpiochip0/sim_gpio7/pull" ENOENT))]).
Proof.
  refine (proj2 (proj1 (X2_read_failure_is_returned_and_nothing_written simfs.os
            Scenario.activated Scenario.activated Scenario.chip0 7 "pull" "" _ _) eq_refl)).
  vm_compute; reflexivity.
Defined.

(** X3. When the [pull] attribute holds a text that is neither "pull-down"
    nor "pull-up", [Toggle] returns the error of [Pull] ("unexpected pull
    value: ...") and writes nothing: the read is its only call. *)
Theorem X3_Toggle_on_unexpected_text_writes_nothing :
  forall (os : OS) (w w1 : world os) (c : Chip) (offset : Z) (data : string),
    handle os (ReadFile (attrPath c offset "pull")) w = ((data, None), w1) ->
    strings.TrimSpace data <> "pull-down" ->
    strings.TrimSpace data <> "pull-up" ->
    run os (Toggle c offset) w
    = (Some (ErrorString ("unexpected pull value: " ++ strings.TrimSpace data)), w1,
       [Ev (ReadFile (attrPath c offset "pull")) (data, None)]).
Proof.
  intros os w w1 c offset data H Hd Hu. unfold Toggle.
  rewrite run_bind, run_Pull, H. cbv beta iota zeta.
  destruct (String.eqb_spec (strings.TrimSpace data) "pull-down"); [done |].
  by destruct (String.eqb_spec (strings.TrimSpace data) "pull-up").
Qed.

Lemma X3_witness :
  run simfs.os (Toggle Scenario.chip0 3) (Cases.pullHolds ("floating" ++ nl))
  = (Some (ErrorString "unexpected pull value: floating"),
     Cases.pullHolds ("floating" ++ nl),
     [Ev (ReadFile Cases.pull3) ("floating" ++ nl, None)]).
Proof.
  refine (X3_Toggle_on_unexpected_text_writes_nothing simfs.os
            (Cases.pullHolds ("floating" ++ nl)) (Cases.pullHolds ("floating" ++ nl))
            Scenario.chip0 3 ("floating" ++ nl) _ _ _).
  - vm_compute; reflexivity.
  - vm_compute; discriminate.
  - vm_compute; discriminate.
Defined.

(** ** White space around the text of an attribute *)

Section PrefixFree.
Variable sp1 : ascii -> bool.
Variable sp2 : ascii -> ascii -> bool.
Variable sp3 : ascii -> ascii -> ascii -> bool.
Hypothesis sp2_not_sp1 : forall a b, sp2 a b = true -> sp1 a = false.
Hypothesis sp3_not_sp1 : forall a b c, sp3 a b c = true -> sp1 a = false.
Hypothesis sp3_not_sp2 : forall a b c, sp3 a b c = true -> sp2 a b = false.

(** Runes at the front are dropped, however many. *)
Lemma trimFront_runs (lead s : string) :
  Runs (strings.isRune sp1 sp2 sp3) lead ->
  strings.trimFront sp1 sp2 sp3 (lead ++ s) = strings.trimFront sp1 sp2 sp3 s.
Proof.
  induction 1 as [| t l Ht Hl IH]; [done |].
  rewrite string_app_assoc.
  destruct t as [| a [| b [| c [| d t]]]]; simpl in Ht; try done.
  - rewrite string_app_cons, string_app_nil_l. simpl. by rewrite Ht.
  - rewrite !string_app_cons, string_app_nil_l. simpl.
    by rewrite (sp2_not_sp1 a b Ht), Ht.
  - rewrite !string_app_cons, string_app_nil_l. simpl.
    by rewrite (sp3_not_sp1 a b c Ht), (sp3_not_sp2 a b c Ht), Ht.
Qed.

(** A byte that starts no rune stops the scan. *)
Lemma trimFront_stays (a : ascii) (s : string) :
  sp1 a = false -> (forall b, sp2 a b = false) -> (forall b c, sp3 a b c = false) ->
  strings.trimFront sp1 sp2 sp3 (String a s) = String a s.
Proof.
  intros H1 H2 H3. simpl. rewrite H1.
  destruct s as [| b [| c s]]; [done | by rewrite H2 |].
  by rewrite H2, H3.
Qed.

End PrefixFree.

Ltac bytes_decide :=
  unfold plainByte, strings.asciiSpace, strings.space2, strings.space3,
    strings.byte_is, strings.byte_in in *;
  repeat match goal with
    | H : _ && _ = true |- _ => apply andb_true_iff in H as [? ?]
    | H : _ || _ = true |- _ => apply orb_true_iff in H as [? | ?]
    | H : negb _ = true |- _ => apply negb_true_iff in H
    | H : N.eqb _ _ = true |- _ => apply N.eqb_eq in H
    | H : N.leb _ _ = true |- _ => apply N.leb_le in H
    | H : N.ltb _ _ = true |- _ => apply N.ltb_lt in H
    end;
  repeat match goal with
    | |- context [N.eqb ?x ?y] => destruct (N.eqb_spec x y); try lia
    | |- context [N.leb ?x ?y] => destruct (N.leb_spec x y); try lia
    end;
  try reflexivity.

Lemma space2_not_ascii a b : strings.space2 a b = true -> strings.asciiSpace a = false.
Proof. intros H. bytes_decide. Qed.

Lemma space3_not_ascii a b c : strings.space3 a b c = true -> strings.asciiSpace a = false.
Proof. intros H. bytes_decide. Qed.

Lemma space3_not_space2 a b c : strings.space3 a b c = true -> strings.space2 a b = false.
Proof. intros H. bytes_decide. Qed.

Lemma space2_rev_not_ascii a b : strings.space2 b a = true -> strings.asciiSpace a = false.
Proof. intros H. bytes_decide. Qed.

Lemma space3_rev_not_ascii a b c : strings.space3 c b a = true -> strings.asciiSpace a = false.
Proof. intros H. bytes_decide. Qed.

Lemma space3_rev_not_space2 a b c : strings.space3 c b a = true -> strings.space2 b a = false.
Proof. intros H. bytes_decide. Qed.

Lemma plainByte_starts_no_space (a : ascii) :
  plainByte a = true ->
  strings.asciiSpace a = false
  /\ (forall b, strings.space2 a b = false)
  /\ (forall b c, strings.space3 a b c = false)
  /\ (forall b, strings.space2 b a = false)
  /\ (forall b c, strings.space3 c b a = false).
Proof.
  intros H. repeat split; intros; bytes_decide.
Qed.

Lemma Spaces_rev (l : string) :
  Spaces l ->
  Runs (strings.isRune strings.asciiSpace (fun a b => strings.space2 b a)
          (fun a b c => strings.space3 c b a)) (strings.rev l).
Proof.
  induction 1 as [| t s Ht Hs IH]; [constructor |].
  rewrite rev_app. apply Runs_app; [done |].
  apply Runs_one. by rewrite isRune_rev, rev_involutive.
Qed.

(** White space around a text that starts and ends with a plain byte is cut
    off by [TrimSpace], and nothing else is. *)
Lemma TrimSpace_padded (lead v trail : string) :
  Spaces lead -> Spaces trail -> plainEnds v = true ->
  strings.TrimSpace (lead ++ v ++ trail) = v.
Proof.
  intros Hl Ht Hv. unfold plainEnds in Hv.
  destruct v as [| a v']; [done |].
  destruct (strings.rev (String a v')) as [| z r] eqn:Er; [done |].
  apply andb_true_iff in Hv as [Ha Hz].
  destruct (plainByte_starts_no_space a Ha) as (A1 & A2 & A3 & _ & _).
  destruct (plainByte_starts_no_space z Hz) as (Z1 & _ & _ & Z2 & Z3).
  unfold strings.TrimSpace, strings.trimLeft, strings.trimRight.
  rewrite (trimFront_runs _ _ _ space2_not_ascii space3_not_ascii space3_not_space2
             lead _ Hl).
  rewrite string_app_cons, (trimFront_stays _ _ _ a _ A1 A2 A3).
  rewrite <- string_app_cons, rev_app.
  rewrite (trimFront_runs _ _ _ space2_rev_not_ascii space3_rev_not_ascii
             space3_rev_not_space2 (strings.rev trail) _ (Spaces_rev trail Ht)).
  rewrite Er, (trimFront_stays _ _ _ z r Z1); [| done | done].
  by rewrite <- Er, rev_involutive.
Qed.

(** X4. White space around the text of an attribute does not matter: when
    the [pull] attribute holds "pull-up" or "pull-down" between any two runs
    of white space (sysfs ends the text with a newline), [Pull] gives
    [LevelActive] or [LevelInactive]; when the [value] attribute holds "1"
    or "0" in that way, [Level] gives [LevelActive] or [LevelInactive]. *)
Theorem X4_white_space_around_the_text_is_ignored :
  forall (os : OS) (w w1 : world os) (c : Chip) (offset : Z)
         (nm lead v trail : string),
    Spaces lead -> Spaces trail ->
    handle os (ReadFile (attrPath c offset nm)) w = ((lead ++ v ++ trail, None), w1) ->
    (nm = "pull" -> v = "pull-up" -> result (run os (Pull c offset) w) = (LevelActive, None))
    /\ (nm = "pull" -> v = "pull-down" ->
        result (run os (Pull c offset) w) = (LevelInactive, None))
    /\ (nm = "value" -> v = "1" -> result (run os (Level c offset) w) = (LevelActive, None))
    /\ (nm = "value" -> v = "0" -> result (run os (Level c offset) w) = (LevelInactive, None)).
Proof.
  intros os w w1 c offset nm lead v trail Hl Ht H.
  repeat split; intros -> ->.
  - rewrite run_Pull, H. by rewrite (TrimSpace_padded lead "pull-up" trail Hl Ht).
  - rewrite run_Pull, H. by rewrite (TrimSpace_padded lead "pull-down" trail Hl Ht).
  - rewrite run_Level, H. by rewrite (TrimSpace_padded lead "1" trail Hl Ht).
  - rewrite run_Level, H. by rewrite (TrimSpace_padded lead "0" trail Hl Ht).
Qed.

Lemma Spaces_of_two (t u : string) :
  strings.isSpaceRune t = true -> strings.isSpaceRune u = true -> Spaces (t ++ u).
Proof. intros Ht Hu. constructor; [done |]. by apply Runs_one. Qed.

Lemma X4_witness :
  result (run simfs.os (Pull Scenario.chip0 3)
            (Cases.pullHolds (" " ++ "pull-up" ++ String (ascii_of_N 13) "" ++ nl)))
  = (LevelActive, None).
Proof.
  refine (proj1 (X4_white_space_around_the_text_is_ignored simfs.os
            (Cases.pullHolds (" " ++ "pull-up" ++ String (ascii_of_N 13) "" ++ nl))
            (Cases.pullHolds (" " ++ "pull-up" ++ String (ascii_of_N 13) "" ++ nl))
            Scenario.chip0 3 "pull" " " "pull-up" (String (ascii_of_N 13) "" ++ nl)
            _ _ _) eq_refl eq_refl).
  - apply Runs_one. reflexivity.
  - apply Spaces_of_two; reflexivity.
  - vm_compute; reflexivity.
Defined.

(** ** Toggle twice, Pullup and Pulldown *)

(** X5. On a line whose [pull] attribute stores what is written to it and
    holds "pull-up" or "pull-down": two calls of [Toggle] leave the pull as
    it was ([Pull] gives the level it gave before), and none of the calls
    reports an error. *)
Theorem X5_Toggle_twice_restores_the_pull :
  forall (os : OS) (c : Chip) (offset : Z)
         (holds : world os -> string -> Prop) (w : world os) (level : Z),
    PlainStorage os (attrPath c offset "pull") holds ->
    holds w (if Z.eqb level LevelActive then "pull-up" else "pull-down") ->
    result (run os (let* e1 := Toggle c offset in
                    let* e2 := Toggle c offset in
                    let* r := Pull c offset in Ret (e1, e2, r)) w)
    = (None, None, (if Z.eqb level LevelActive then LevelActive else LevelInactive, None)).
Proof.
  intros os c offset holds w level storage H.
  destruct (Toggle_inverts os c offset holds storage w level H) as (w1 & t1 & H1 & Hh1).
  assert (exists w2 t2, run os (Toggle c offset) w1 = (None, w2, t2)
            /\ holds w2 (if Z.eqb level LevelActive then "pull-up" else "pull-down"))
    as (w2 & t2 & H2 & Hh2).
  { destruct (Z.eqb level LevelActive).
    - apply (Toggle_inverts os c offset holds storage w1 0 Hh1).
    - apply (Toggle_inverts os c offset holds storage w1 1 Hh1). }
  destruct (Pull_reads os c offset holds storage w2 level Hh2) as (w3 & t3 & H3 & _).
  rewrite run_bind, H1. cbv beta. rewrite run_bind, H2. cbv beta.
  by rewrite run_bind, H3.
Qed.

Lemma X5_witness :
  storesAt (attrPath Scenario.chip0 3 "pull") (Cases.pullHolds "pull-up") "pull-up"
  /\ result (run simfs.os (let* e1 := Toggle Scenario.chip0 3 in
                         let* e2 := Toggle Scenario.chip0 3 in
                         let* r := Pull Scenario.chip0 3 in Ret (e1, e2, r))
               (Cases.pullHolds "pull-up"))
     = (None, None, (LevelActive, None)).
Proof.
  assert (storesAt (attrPath Scenario.chip0 3 "pull") (Cases.pullHolds "pull-up") "pull-up")
    as H by (repeat split; vm_compute; reflexivity).
  split; [exact H |].
  exact (X5_Toggle_twice_restores_the_pull simfs.os Scenario.chip0 3 _
           (Cases.pullHolds "pull-up") LevelActive (simfs_plain_storage _) H).
Defined.

(** X6. On a line whose [pull] attribute stores what is written to it:
    [Pullup] and then [Pull] gives [LevelActive], [Pulldown] and then [Pull]
    gives [LevelInactive], and neither reports an error. *)
Theorem X6_Pullup_and_Pulldown_are_read_back :
  forall (os : OS) (c : Chip) (offset : Z)
         (holds : world os -> string -> Prop) (w : world os) (c0 : string),
    PlainStorage os (attrPath c offset "pull") holds ->
    holds w c0 ->
    result (run os (let* e := Pullup c offset in
                    let* r := Pull c offset in Ret (e, r)) w)
    = (None, (LevelActive, None))
    /\ result (run os (let* e := Pulldown c offset in
                       let* r := Pull c offset in Ret (e, r)) w)
       = (None, (LevelInactive, None)).
Proof.
  intros os c offset holds w c0 storage H. unfold Pullup, Pulldown.
  destruct (SetPull_stores os c offset holds storage LevelActive w c0 H)
    as (wa & ta & Ha & Hha).
  destruct (Pull_reads os c offset holds storage wa LevelActive Hha)
    as (wa' & ta' & Hpa & _).
  destruct (SetPull_stores os c offset holds storage LevelInactive w c0 H)
    as (wi & ti & Hi & Hhi).
  destruct (Pull_reads os c offset holds storage wi LevelInactive Hhi)
    as (wi' & ti' & Hpi & _).
  unfold LevelActive, LevelInactive in *. simpl Z.eqb in *.
  split.
  - rewrite run_bind, Ha. cbv beta. by rewrite run_bind, Hpa.
  - rewrite run_bind, Hi. cbv beta. by rewrite run_bind, Hpi.
Qed.

Lemma X6_witness :
  storesAt (attrPath Scenario.chip0 3 "pull") Scenario.activated ("pull-down" ++ nl)
  /\ result (run simfs.os (let* e := Pullup Scenario.chip0 3 in
                         let* r := Pull Scenario.chip0 3 in Ret (e, r))
               Scenario.activated)
     = (None, (LevelActive, None)).
Proof.
  assert (storesAt (attrPath Scenario.chip0 3 "pull") Scenario.activated ("pull-down" ++ nl))
    as H by (repeat split; vm_compute; reflexivity).
  split; [exact H |].
  exact (proj1 (X6_Pullup_and_Pulldown_are_read_back simfs.os Scenario.chip0 3 _
                  Scenario.activated _ (simfs_plain_storage _) H)).
Defined.

(** ** Banks built from options *)

Lemma mapGet_mapSet {V : Type} (m : gomap V) (k k' : Z) (v : V) :
  mapGet (mapSet m k v) k' = if Z.eqb k k' then Some v else mapGet m k'.
Proof.
  induction m as [| [k0 v0] m IH]; simpl.
  - done.
  - destruct (Z.eqb_spec k0 k) as [-> | Hne]; simpl.
    + by destruct (Z.eqb_spec k k').
    + rewrite IH. destruct (Z.eqb_spec k0 k') as [-> | Hne'].
      * by destruct (Z.eqb_spec k k'); [congruence |].
      * done.
Qed.

Lemma mapSet_keys {V : Type} (m : gomap V) (k : Z) (v : V) :
  (mapSet m k v).*1 = if decide (k ∈ m.*1) then m.*1 else (m.*1 ++ [k])%list.
Proof.
  induction m as [| [k0 v0] m IH].
  - destruct (decide (k ∈ ([] : gomap V).*1)) as [Hin | _]; [| done].
    by apply elem_of_nil in Hin.
  - cbn [mapSet]. destruct (Z.eqb_spec k0 k) as [-> | Hne].
    + destruct (decide (k ∈ ((k, v0) :: m).*1)) as [_ | Hnin]; [done |].
      exfalso. apply Hnin. apply list_elem_of_here.
    + change (((k0, v0) :: mapSet m k v).*1) with (k0 :: (mapSet m k v).*1).
      rewrite IH.
      change (((k0, v0) :: m).*1) with (k0 :: m.*1).
      destruct (decide (k ∈ m.*1)) as [Hin | Hnin];
        destruct (decide (k ∈ k0 :: m.*1)) as [Hin' | Hnin']; try done.
      * exfalso. apply Hnin'. by apply list_elem_of_further.
      * apply elem_of_cons in Hin' as [? | ?]; congruence.
Qed.

Lemma mapSet_OK {V : Type} (m : gomap V) (k : Z) (v : V) :
  mapOK m -> mapOK (mapSet m k v).
Proof.
  unfold mapOK. intros H. rewrite mapSet_keys.
  destruct (decide (k ∈ m.*1)); [done |].
  apply NoDup_app. repeat split; [done | | apply NoDup_singleton].
  intros x Hx Hk. apply list_elem_of_singleton in Hk as ->. done.
Qed.

Lemma NewBank_fold (options : list NewBankOption) (b : Bank) (o : Z) :
  let b' := fold_left (fun b opt => applyBankOption opt b) options b in
  NumLines b' = NumLines b /\ Label b' = Label b
  /\ (mapOK (Names b) -> mapOK (Names b'))
  /\ (mapOK (Hogs b) -> mapOK (Hogs b'))
  /\ mapGet (Names b') o
     = fold_left (fun acc opt =>
                    match opt with
                    | WithNamedLine o' n => if Z.eqb o' o then Some n else acc
                    | WithHoggedLine _ _ _ => acc
                    end) options (mapGet (Names b) o)
  /\ mapGet (Hogs b') o
     = fold_left (fun acc opt =>
                    match opt with
                    | WithHoggedLine o' consumer direction =>
                        if Z.eqb o' o
                        then Some {| Consumer := consumer; Direction := direction |}
                        else acc
                    | WithNamedLine _ _ => acc
                    end) options (mapGet (Hogs b) o).
Proof.
  revert b. induction options as [| opt options IH]; intros b; [done |].
  cbn [fold_left]. destruct (IH (applyBankOption opt b)) as (H1 & H2 & H3 & H4 & H5 & H6).
  cbv zeta. rewrite H1, H2, H5, H6. clear IH H1 H2 H5 H6.
  destruct opt as [o' n | o' consumer direction]; simpl in *.
  - repeat split; try done.
    + intros H. by apply H3, mapSet_OK.
    + by rewrite mapGet_mapSet.
  - repeat split; try done.
    + intros H. by apply H4, mapSet_OK.
    + by rewrite mapGet_mapSet.
Qed.

(** X7. [NewBank] keeps the label and the number of lines it is given,
    whatever the options.  The keys of the maps [Names] and [Hogs] it builds
    are distinct, and looking up an offset gives what the last option for
    that offset said: an offset no option mentions is absent, and a later
    option for the same offset replaces an earlier one. *)
Theorem X7_NewBank_applies_the_options_in_order :
  forall (label : string) (numLines : Z) (options : list NewBankOption) (o : Z),
    Label (NewBank label numLines options) = label
    /\ NumLines (NewBank label numLines options) = numLines
    /\ mapOK (Names (NewBank label numLines options))
    /\ mapOK (Hogs (NewBank label numLines options))
    /\ mapGet (Names (NewBank label numLines options)) o = namedAt options o
    /\ mapGet (Hogs (NewBank label numLines options)) o = hoggedAt options o.
Proof.
  intros label numLines options o. unfold NewBank.
  destruct (NewBank_fold options
              {| NumLines := numLines; Label := label; Names := []; Hogs := [] |} o)
    as (H1 & H2 & H3 & H4 & H5 & H6).
  repeat split; try done.
  - apply H3. apply NoDup_nil_2.
  - apply H4. apply NoDup_nil_2.
Qed.

(** ** What NewSim returns *)

Lemma liveChips_shape (dev : string) (idx : list nat) (s0 : Sim) (r : option Sim) (e : error) :
  Returns (liveChips dev idx s0) (r, e) ->
  (r = None /\ e <> None) \/ (r <> None /\ e = None).
Proof.
  revert s0. induction idx as [| i idx IH]; intros s0 H.
  - simpl in H. injection H as -> ->. by right.
  - cbn [liveChips] in H.
    apply Returns_bind_inv in H as ([chip err] & _ & H).
    destruct err as [x |]; cbn [isNil] in H.
    { apply Returns_Close_then in H. injection H as -> ->. by left. }
    apply Returns_bind_inv in H as ([mode err'] & _ & H).
    destruct err' as [x |]; cbn [isNil] in H.
    { simpl in H. injection H as -> ->. by left. }
    destruct (negb _); [simpl in H; injection H as -> ->; by left |].
    by apply IH in H.
Qed.

Lemma live_shape (b : builder) (r : option Sim) (e : error) :
  Returns (live b) (r, e) ->
  (r = None /\ e <> None) \/ (r <> None /\ e = None).
Proof.
  unfold live. intros H.
  destruct (Nat.eqb (length (banks b)) 0).
  { simpl in H. injection H as -> ->. by left. }
  apply Returns_bind_inv in H as (nm & _ & H).
  apply Returns_bind_inv in H as ([root err] & _ & H).
  destruct err as [x |]; cbn [isNil] in H.
  { simpl in H. injection H as -> ->. by left. }
  apply Returns_bind_inv in H as (e1 & _ & H).
  destruct e1 as [x |]; cbn [isNil] in H.
  2:{ simpl in H. injection H as -> ->. by left. }
  apply Returns_bind_inv in H as (e2 & _ & H).
  apply Returns_bind_inv in H as (e3 & _ & H).
  destruct e3 as [y |]; cbn [isNil] in H.
  { apply Returns_Close_then in H. injection H as -> ->. by left. }
  apply Returns_bind_inv in H as ([dev e4] & _ & H).
  destruct e4 as [y |]; cbn [isNil] in H.
  { apply Returns_Close_then in H. injection H as -> ->. by left. }
  by apply liveChips_shape in H.
Qed.

(** X8. [NewSim] returns a sim exactly when it returns no error: on every
    system and for all options, either the sim is nil and the error is not,
    or the sim is not nil and the error is. *)
Theorem X8_NewSim_returns_a_sim_or_an_error :
  forall (os : OS) (w : world os) (options : list NewSimOption),
    match result (run os (NewSim options) w) with
    | (Some _, None) | (None, Some _) => True
    | (Some _, Some _) | (None, None) => False
    end.
Proof.
  intros os w options.
  pose proof (run_Returns os (NewSim options) w) as R.
  destruct (result (run os (NewSim options) w)) as [r e].
  apply live_shape in R as [[-> He] | [Hr ->]].
  - by destruct e.
  - by destruct r.
Qed.

Lemma name_fold_applySimOption (options : list NewSimOption) (b : builder) :
  name (fold_left (fun b o => applySimOption o b) options b)
  = fold_left (fun acc o => match o with WithName n => n | WithBank _ => acc end)
      options (name b).
Proof.
  revert b. induction options as [| o options IH]; intros b; [done |].
  cbn [fold_left]. rewrite IH. by destruct o.
Qed.

(** A run of [live] that returns a sim gave it the name [liveName] produced
    and a path made of the root found and that name. *)
Lemma live_ok_name (os : OS) (b : builder) (w w' : world os) (t : list Event)
    (s : Sim) (e : error) :
  run os (live b) w = ((Some s, e), w', t) ->
  Name s = result (run os (liveName b) w)
  /\ exists root e', Returns findConfigfsPath (root, e')
                     /\ configfsPath s = path.Join [root; Name s].
Proof.
  unfold live. intros H.
  destruct (Nat.eqb (length (banks b)) 0); [by simpl in H |].
  apply run_bind_inv in H as (nm & w1 & t1 & t1' & Hnm & H & ->).
  rewrite Hnm. unfold result. cbn [fst].
  apply run_bind_inv in H as ([root err] & w2 & t2 & t2' & Hroot & H & ->).
  apply run_Returns_eq in Hroot.
  destruct (isNil err); [| by simpl in H].
  apply run_bind_inv in H as (e1 & w3 & t3 & t3' & _ & H & ->).
  destruct (isNil e1); [by simpl in H |].
  apply run_bind_inv in H as (e2 & w4 & t4 & t4' & _ & H & ->).
  apply run_bind_inv in H as (e3 & w5 & t5 & t5' & _ & H & ->).
  destruct (isNil e3); [| by apply run_Returns_eq, Returns_Close_then in H].
  apply run_bind_inv in H as ([dev e4] & w6 & t6 & t6' & _ & H & ->).
  destruct (isNil e4); [| by apply run_Returns_eq, Returns_Close_then in H].
  apply run_Returns_eq, liveChips_same_sim in H as [-> ->]. cbn [Name configfsPath].
  split; [done |]. by exists root, err.
Qed.

(** X9. The sim [NewSim] returns carries the name of the last [WithName]
    option when that name is not empty; with no such option, or an empty
    name, it carries the name [uniqueName] generates at the start of the
    call.  Its configfs path is that name joined to a root found by
    [findConfigfsPath]. *)
Theorem X9_the_name_of_the_sim :
  forall (os : OS) (w w' : world os) (options : list NewSimOption)
         (s : Sim) (e : error) (t : list Event),
    run os (NewSim options) w = ((Some s, e), w', t) ->
    (givenName options <> "" -> Name s = givenName options)
    /\ (givenName options = "" -> Name s = result (run os uniqueName w))
    /\ exists root e', Returns findConfigfsPath (root, e')
                       /\ configfsPath s = path.Join [root; Name s].
Proof.
  intros os w w' options s e t H. unfold NewSim in H.
  apply live_ok_name in H as [Hname Hpath].
  assert (name (fold_left (fun b o => applySimOption o b) options
                  {| name := ""; banks := [] |}) = givenName options) as Hg
    by apply name_fold_applySimOption.
  unfold liveName in Hname. rewrite Hg in Hname.
  repeat split; [| | exact Hpath].
  - intros Hne. apply String.eqb_neq in Hne. by rewrite Hne in Hname.
  - intros Heq. by rewrite Heq in Hname.
Qed.

Lemma X9_witness :
  run simfs.os (NewSim Scenario.options) Scenario.fresh
  = ((Some Scenario.theSim, None), Scenario.activated,
     trace (run simfs.os (NewSim Scenario.options) Scenario.fresh))
  /\ Name Scenario.theSim = "gpiosim_test".
Proof.
  assert (run simfs.os (NewSim Scenario.options) Scenario.fresh
          = ((Some Scenario.theSim, None), Scenario.activated,
             trace (run simfs.os (NewSim Scenario.options) Scenario.fresh))) as H
    by (vm_compute; reflexivity).
  split; [exact H |].
  refine (proj1 (X9_the_name_of_the_sim simfs.os _ _ Scenario.options _ _ _ H) _).
  vm_compute; discriminate.
Defined.

(** ** The paths of the chips *)

Lemma liveChips_paths (dev : string) (idx : list nat) (s0 s : Sim) (e : error) :
  Returns (liveChips dev idx s0) (Some s, e) ->
  NoDup idx ->
  forall (i : nat) (c : Chip),
    Chips s !! i = Some c ->
    (i ∈ idx ->
     devName c = dev
     /\ devPath c = path.Join ["/dev"; chipName c]
     /\ sysfsPath c = path.Join ["/sys/devices/platform"; dev; chipName c])
    /\ (i ∉ idx -> Chips s0 !! i = Some c).
Proof.
  revert s0. induction idx as [| j idx IH]; intros s0 H Hnd i c Hc.
  - simpl in H. injection H as -> _. split; [by intros ?%elem_of_nil | done].
  - cbn [liveChips] in H.
    apply Returns_bind_inv in H as ([chip err] & _ & H).
    destruct (isNil err); [| by apply Returns_Close_then in H].
    apply Returns_bind_inv in H as ([mode err'] & _ & H).
    destruct (isNil err'); [| by simpl in H].
    destruct (negb _); [by simpl in H |].
    apply NoDup_cons in Hnd as [Hj Hnd].
    destruct (IH _ H Hnd i c Hc) as [Hin Hout].
    split.
    + intros [-> | Hi]%elem_of_cons; [| by apply Hin].
      specialize (Hout Hj). cbn [setChip Chips] in Hout.
      rewrite !list_lookup_alter_eq in Hout.
      destruct (Chips s0 !! j) as [c0 |]; [| done].
      simpl in Hout. injection Hout as <-. done.
    + intros Hni. apply not_elem_of_cons in Hni as [Hne Hni].
      specialize (Hout Hni). cbn [setChip Chips] in Hout.
      by rewrite !list_lookup_alter_ne in Hout by done.
Qed.

(** X10. In the sim [NewSim] returns, every chip has the device name read
    back for the sim, the same for all chips; its device path is its chip
    name in /dev, and its sysfs path is /sys/devices/platform, the device
    name and the chip name. *)
Theorem X10_the_paths_of_the_chips :
  forall (os : OS) (w : world os) (options : list NewSimOption) (s : Sim) (e : error),
    result (run os (NewSim options) w) = (Some s, e) ->
    exists dev : string,
      forall c : Chip, c ∈ Chips s ->
        devName c = dev
        /\ DevPath c = path.Join ["/dev"; ChipName c]
        /\ sysfsPath c = path.Join ["/sys/devices/platform"; dev; ChipName c].
Proof.
  intros os w options s e H.
  pose proof (run_Returns os (NewSim options) w) as R. rewrite H in R.
  unfold NewSim, live in R.
  destruct (Nat.eqb (length (banks _)) 0); [by simpl in R |].
  apply Returns_bind_inv in R as (nm & _ & R).
  apply Returns_bind_inv in R as ([root err] & _ & R).
  destruct (isNil err); [| by simpl in R].
  apply Returns_bind_inv in R as (e1 & _ & R).
  destruct (isNil e1); [by simpl in R |].
  apply Returns_bind_inv in R as (e2 & _ & R).
  apply Returns_bind_inv in R as (e3 & _ & R).
  destruct (isNil e3); [| by apply Returns_Close_then in R].
  apply Returns_bind_inv in R as ([dev e4] & _ & R).
  destruct (isNil e4); [| by apply Returns_Close_then in R].
  exists dev. intros c Hc.
  apply list_elem_of_lookup in Hc as [i Hi].
  pose proof (liveChips_cfg _ _ _ _ _ R) as Hlen.
  apply (f_equal length) in Hlen. rewrite !length_map in Hlen.
  destruct (liveChips_paths _ _ _ _ _ R (NoDup_seq _ _) i c Hi) as [Hin _].
  apply Hin. apply elem_of_seq. apply lookup_lt_Some in Hi. lia.
Qed.

Lemma X10_witness :
  result (run simfs.os (NewSim Scenario.options) Scenario.fresh)
  = (Some Scenario.theSim, None)
  /\ exists dev : string,
       forall c : Chip, c ∈ Chips Scenario.theSim ->
         devName c = dev
         /\ DevPath c = path.Join ["/dev"; ChipName c]
         /\ sysfsPath c = path.Join ["/sys/devices/platform"; dev; ChipName c].
Proof.
  assert (result (run simfs.os (NewSim Scenario.options) Scenario.fresh)
          = (Some Scenario.theSim, None)) as H by (vm_compute; reflexivity).
  split; [exact H |].
  exact (X10_the_paths_of_the_chips simfs.os _ Scenario.options _ _ H).
Defined.

(** ** The calls of setupConfigfs *)

Lemma FailFast_call (c : Call error) : FailFast (call c) [Ev c None].
Proof.
  intros os w. rewrite run_call. destruct (handle os c w) as [[e |] w1]; [| done].
  by exists [], c.
Qed.

Lemma FailFast_orReturn (p q : Prog error) (cp cq : list Event) :
  FailFast p cp -> FailFast q cq -> FailFast (p ;;! q) (cp ++ cq)%list.
Proof.
  intros Hp Hq os w. unfold orReturn. rewrite run_bind.
  specialize (Hp os w). destruct (run os p w) as [[[e |] w1] t1].
  - simpl. destruct Hp as (pre & c & -> & Hpre).
    rewrite app_nil_r. exists pre, c. split; [done |]. by apply prefix_app_r.
  - subst t1. cbn [isNil]. specialize (Hq os w1).
    destruct (run os q w1) as [[[e |] w2] t2].
    + destruct Hq as (pre & c & -> & Hpre).
      exists (cp ++ pre)%list, c. rewrite <- !app_assoc. split; [done |].
      by apply prefix_app.
    + by subst t2.
Qed.

Lemma FailFast_forRange {X : Type} (l : list X) (body : X -> Prog error)
    (calls : X -> list Event) :
  (forall x, FailFast (body x) (calls x)) ->
  FailFast (forRange l body) (concat (List.map calls l)).
Proof.
  intros Hbody. induction l as [| x l IH]; [by intros os w |].
  cbn [forRange List.map concat]. by apply FailFast_orReturn.
Qed.

Lemma FailFast_setupName (bankPath : string) (on : Z * string) :
  FailFast (setupName bankPath on) (nameCalls bankPath on.1 on.2).
Proof.
  unfold setupName, writeAttr, nameCalls.
  apply (FailFast_orReturn _ _ [_] [_]); apply FailFast_call.
Qed.

Lemma FailFast_setupHog (bankPath : string) (oh : Z * Hog) :
  FailFast (setupHog bankPath oh) (hogCalls bankPath oh.1 oh.2).
Proof.
  unfold setupHog, writeAttr, hogCalls.
  apply (FailFast_orReturn _ _ [_] [_; _]); [apply FailFast_call |].
  apply (FailFast_orReturn _ _ [_] [_]); apply FailFast_call.
Qed.

Lemma FailFast_setupBank (s : Sim) (ic : Z * Chip) :
  FailFast (setupBank s ic) (bankCalls s ic).
Proof.
  unfold setupBank, writeAttr, bankCalls.
  apply (FailFast_orReturn _ _ [_] (_ :: _ :: _)); [apply FailFast_call |].
  apply (FailFast_orReturn _ _ [_] (_ :: _)); [apply FailFast_call |].
  apply (FailFast_orReturn _ _ [_] _); [apply FailFast_call |].
  apply FailFast_orReturn.
  - apply FailFast_forRange. intros on. apply FailFast_setupName.
  - apply FailFast_forRange. intros oh. apply FailFast_setupHog.
Qed.

(** X11. [setupConfigfs] goes through the banks in order and makes, for
    each, the calls of [bankCalls]: the bank directory, [label], then
    [num_lines], then for each named line its directory and [name], then for
    each hog its directory, [name] and [direction].  When every call is
    answered without error it returns nil and has made exactly these calls.
    Otherwise it returns the first error it is answered with, and the calls it
    has made are the calls of that list up to the one that failed: no call is
    made after a failure. *)
Theorem X11_setupConfigfs_stops_at_the_first_error :
  forall (os : OS) (w : world os) (s : Sim),
    match run os (setupConfigfs s) w with
    | (None, _, t) => t = setupCalls s
    | (Some e, _, t) =>
        exists (pre : list Event) (c : Call error),
          t = (pre ++ [Ev c (Some e)])%list
          /\ (pre ++ [Ev c None])%list `prefix_of` setupCalls s
    end.
Proof.
  intros os w s. unfold setupConfigfs, setupCalls.
  apply (FailFast_forRange (indexed (Chips s)) (setupBank s) (bankCalls s)).
  intros ic. apply FailFast_setupBank.
Qed.

(** ** The calls of cleanupConfigfs *)

Section Cleanup.
Context (os : OS).

Lemma removed_app (t1 t2 : list Event) : removed (t1 ++ t2) = (removed t1 ++ removed t2)%list.
Proof. unfold removed. apply omap_app. Qed.

(** A loop whose body only removes: the paths removed are those of the
    bodies, in order. *)
Lemma forEach_removals {X : Type} (l : list X) (body : X -> Prog unit)
    (paths : X -> list string) (w : world os) :
  (forall x w, forallb isRemove (trace (run os (body x) w)) = true
               /\ removed (trace (run os (body x) w)) = paths x) ->
  forallb isRemove (trace (run os (forEach l body) w)) = true
  /\ removed (trace (run os (forEach l body) w)) = concat (List.map paths l).
Proof.
  intros Hbody. revert w. induction l as [| x l IH]; intros w; [done |].
  cbn [forEach List.map concat]. rewrite run_bind.
  destruct (Hbody x w) as [Hf Hr].
  destruct (run os (body x) w) as [[[] w1] t1].
  destruct (IH w1) as [Hf' Hr'].
  destruct (run os (forEach l body) w1) as [[[] w2] t2].
  unfold trace in *. cbn [snd] in *.
  by rewrite forallb_app, Hf, Hf', removed_app, Hr, Hr'.
Qed.

Lemma run_cleanupBank (s : Sim) (ic : Z * Chip) (w : world os) :
  match handle os (Stat (bankPathOf s ic.1)) w with
  | (Some e, w1) =>
      run os (cleanupBank s ic) w = (tt, w1, [Ev (Stat (bankPathOf s ic.1)) (Some e)])
  | (None, w1) =>
      exists w2 tb,
        run os (cleanupBank s ic) w = (tt, w2, Ev (Stat (bankPathOf s ic.1)) None :: tb)
        /\ forallb isRemove tb = true
        /\ removed tb = bankRemovals (bankPathOf s ic.1) ic.2
  end.
Proof.
  unfold cleanupBank. rewrite run_bind, run_call.
  destruct (handle os (Stat (bankPathOf s ic.1)) w) as [[e |] w1]; [done |].
  cbn [isNil]. set (bankPath := bankPathOf s ic.1).
  rewrite run_bind.
  destruct (forEach_removals (Hogs (cfg ic.2))
              (fun oh => call (Remove (path.Join [linePathOf bankPath oh.1; "hog"])) ;;
                         call (Remove (linePathOf bankPath oh.1)) ;; Ret tt)
              (fun oh => [path.Join [linePathOf bankPath oh.1; "hog"];
                          linePathOf bankPath oh.1]) w1) as [Hf1 Hr1].
  { intros oh w0. simpl.
    destruct (handle os (Remove (path.Join [linePathOf bankPath oh.1; "hog"])) w0) as [r1 wa].
    by destruct (handle os (Remove (linePathOf bankPath oh.1)) wa) as [r2 wb]. }
  destruct (run os (forEach (Hogs (cfg ic.2)) _) w1) as [[[] w2] t2].
  rewrite run_bind.
  destruct (forEach_removals (Names (cfg ic.2))
              (fun on => call (Remove (linePathOf bankPath on.1)) ;; Ret tt)
              (fun on => [linePathOf bankPath on.1]) w2) as [Hf2 Hr2].
  { intros on w0. simpl.
    by destruct (handle os (Remove (linePathOf bankPath on.1)) w0) as [r1 wa]. }
  destruct (run os (forEach (Names (cfg ic.2)) _) w2) as [[[] w3] t3].
  simpl. destruct (handle os (Remove bankPath) w3) as [r w4].
  unfold trace in *. cbn [snd] in *.
  exists w4, (t2 ++ t3 ++ [Ev (Remove bankPath) r])%list.
  split; [done |]. split.
  - by rewrite !forallb_app, Hf1, Hf2.
  - rewrite !removed_app, Hr1, Hr2. unfold bankRemovals. fold bankPath.
    do 2 f_equal. clear. induction (Names (cfg ic.2)) as [| on l IH]; [done |].
    simpl. by rewrite IH.
Qed.

Lemma run_cleanup_loop (s : Sim) (l : list (Z * Chip)) (w : world os) :
  CleanupRun s l (trace (run os (forEach l (cleanupBank s)) w)).
Proof.
  revert w. induction l as [| ic l IH]; intros w; [constructor |].
  cbn [forEach]. rewrite run_bind.
  pose proof (run_cleanupBank s ic w) as Hb.
  destruct (handle os (Stat (bankPathOf s ic.1)) w) as [[e |] w1].
  - rewrite Hb. specialize (IH w1).
    destruct (run os (forEach l (cleanupBank s)) w1) as [[[] w2] t2].
    by constructor.
  - destruct Hb as (w2 & tb & -> & Hf & Hr). specialize (IH w2).
    destruct (run os (forEach l (cleanupBank s)) w2) as [[[] w3] t3].
    unfold trace in *. cbn [snd] in *.
    change ((Ev (Stat (bankPathOf s ic.1)) None :: tb) ++ t3)%list
      with (Ev (Stat (bankPathOf s ic.1)) None :: tb ++ t3)%list.
    by constructor.
Qed.

End Cleanup.

(** X12. When the write of "0" to [live] is answered without error,
    [cleanupConfigfs] returns nil whatever the later calls are answered
    with: the errors of [os.Stat] and [os.Remove] never reach the caller.
    After the write it goes through the banks in order: a bank whose
    directory [os.Stat] does not find is skipped with no removal; for every
    other bank it removes, for each hog, the [hog] directory and the line
    directory, then the directories of the named lines, then the bank
    directory.  Its last call removes the configfs path of the sim. *)
Theorem X12_cleanupConfigfs_skips_and_ignores :
  forall (os : OS) (w w1 : world os) (s : Sim),
    handle os (WriteFile (path.Join [configfsPath s; "live"]) "0" perm0666) w = (None, w1) ->
    result (run os (cleanupConfigfs s) w) = None
    /\ exists (t : list Event) (r : error),
         trace (run os (cleanupConfigfs s) w)
         = (Ev (WriteFile (path.Join [configfsPath s; "live"]) "0" perm0666) None
              :: t ++ [Ev (Remove (configfsPath s)) r])%list
         /\ CleanupRun s (indexed (Chips s)) t.
Proof.
  intros os w w1 s H. unfold cleanupConfigfs.
  rewrite run_bind, run_writeAttr, H. cbn [isNil]. rewrite run_bind.
  pose proof (run_cleanup_loop os s (indexed (Chips s)) w1) as Hl.
  destruct (run os (forEach (indexed (Chips s)) (cleanupBank s)) w1) as [[[] w2] t].
  simpl. destruct (handle os (Remove (configfsPath s)) w2) as [r w3].
  split; [done |]. by exists t, r.
Qed.

Lemma X12_witness :
  handle simfs.os (WriteFile (path.Join [configfsPath Scenario.theSim; "live"]) "0" perm0666)
    Scenario.activated
  = (None, final (run simfs.os (call (WriteFile (path.Join [configfsPath Scenario.theSim; "live"])
                                   "0" perm0666)) Scenario.activated))
  /\ result (run simfs.os (cleanupConfigfs Scenario.theSim) Scenario.activated) = None.
Proof.
  assert (handle simfs.os
            (WriteFile (path.Join [configfsPath Scenario.theSim; "live"]) "0" perm0666)
            Scenario.activated
          = (None, final (run simfs.os
                            (call (WriteFile (path.Join [configfsPath Scenario.theSim; "live"])
                                     "0" perm0666)) Scenario.activated))) as H
    by (vm_compute; reflexivity).
  split; [exact H |].
  exact (proj1 (X12_cleanupConfigfs_skips_and_ignores simfs.os _ _ Scenario.theSim H)).
Defined.

(** ** Failures of activation that are rolled back *)

(** X13. When building the tree fails, or the tree is built and the write
    of "1" to [live] fails, [live] calls [Close] on the sim and then returns
    that error: the calls of [Close] are the last calls made, and no name is
    read back. *)
Theorem X13_failed_setup_or_activation_is_closed :
  forall (os : OS) (b : builder) (w w1 w2 w3 w4 w5 w6 : world os)
         (nm root : string) (t1 t2 t4 t5 t6 : list Event)
         (e0 e : Err) (e2 : error) (s' : Sim),
    banks b <> [] ->
    run os (liveName b) w = (nm, w1, t1) ->
    run os findConfigfsPath w1 = ((root, None), w2, t2) ->
    handle os (Stat (path.Join [root; nm])) w2 = (Some e0, w3) ->
    run os (setupConfigfs {| Name := nm; Chips := List.map newChip (banks b);
                             configfsPath := path.Join [root; nm] |}) w3
    = (e2, w4, t4) ->
    run os (if isNil e2 then writeAttr (path.Join [root; nm]) "live" "1" else Ret e2) w4
    = (Some e, w5, t5) ->
    run os (Close {| Name := nm; Chips := List.map newChip (banks b);
                     configfsPath := path.Join [root; nm] |}) w5 = (s', w6, t6) ->
    run os (live b) w
    = ((None, Some e), w6,
       (t1 ++ t2 ++ [Ev (Stat (path.Join [root; nm])) (Some e0)] ++ t4 ++ t5 ++ t6)%list).
Proof.
  intros os b w w1 w2 w3 w4 w5 w6 nm root t1 t2 t4 t5 t6 e0 e e2 s'
    Hb Hname Hroot Hstat Hsetup Hlive Hclose.
  unfold live. destruct (banks b) as [| k ks] eqn:E; [done |].
  change (Nat.eqb (length (k :: ks)) 0) with false. cbv iota.
  rewrite run_bind, Hname. cbv beta iota.
  rewrite run_bind, Hroot. cbv beta iota. unfold isNil at 1.
  rewrite run_bind, run_call, Hstat. cbv beta iota. unfold isNil at 1.
  rewrite run_bind, Hsetup. cbv beta iota.
  rewrite run_bind, Hlive. cbv beta iota. unfold isNil at 1.
  rewrite run_bind, Hclose. cbn [run]. by rewrite !app_nil_r.
Qed.

Lemma X13_witness :
  run Cases.unprivileged (live Scenario.theBuilder) Scenario.fresh
  = ((None, Some (PathError "mkdir" "/sys/kernel/config/gpio-sim/gpiosim_test/bank0" EACCES)),
     Scenario.fresh,
     [Ev (Stat "/sys/kernel/config/gpio-sim") None;
      Ev (Stat "/sys/kernel/config/gpio-sim/gpiosim_test")
        (Some (PathError "stat" "/sys/kernel/config/gpio-sim/gpiosim_test" ENOENT));
      Ev (MkdirAll "/sys/kernel/config/gpio-sim/gpiosim_test/bank0" perm0755)
        (Some (PathError "mkdir" "/sys/kernel/config/gpio-sim/gpiosim_test/bank0" EACCES));
      Ev (WriteFile "/sys/kernel/config/gpio-sim/gpiosim_test/live" "0" perm0666)
        (Some (PathError "open" "/sys/kernel/config/gpio-sim/gpiosim_test/live" EACCES))]).
Proof.
  refine (X13_failed_setup_or_activation_is_closed Cases.unprivileged Scenario.theBuilder
            Scenario.fresh Scenario.fresh Scenario.fresh Scenario.fresh Scenario.fresh
            Scenario.fresh Scenario.fresh "gpiosim_test" "/sys/kernel/config/gpio-sim"
            [] [_] [_] [] [_] _ _ _ _ _ _ _ _ _ _ _).
  - discriminate.
  - vm_compute; reflexivity.
  - vm_compute; reflexivity.
  - vm_compute; reflexivity.
  - vm_compute; reflexivity.
  - vm_compute; reflexivity.
  - vm_compute; reflexivity.
Defined.

(** X14. When the tree is built and the sim is set live but [dev_name]
    cannot be read back, [live] calls [Close] on the sim and then returns
    the error of the read, and looks at no chip. *)
Theorem X14_unreadable_dev_name_is_closed :
  forall (os : OS) (b : builder) (w w1 w2 w3 w4 w5 w6 w7 : world os)
         (nm root data : string) (t1 t2 t4 t7 : list Event) (e0 e : Err) (s' : Sim),
    banks b <> [] ->
    run os (liveName b) w = (nm, w1, t1) ->
    run os findConfigfsPath w1 = ((root, None), w2, t2) ->
    handle os (Stat (path.Join [root; nm])) w2 = (Some e0, w3) ->
    run os (setupConfigfs {| Name := nm; Chips := List.map newChip (banks b);
                             configfsPath := path.Join [root; nm] |}) w3
    = (None, w4, t4) ->
    handle os (WriteFile (path.Join [path.Join [root; nm]; "live"]) "1" perm0666) w4
    = (None, w5) ->
    handle os (ReadFile (path.Join [path.Join [root; nm]; "dev_name"])) w5
    = ((data, Some e), w6) ->
    run os (Close {| Name := nm; Chips := List.map newChip (banks b);
                     configfsPath := path.Join [root; nm] |}) w6 = (s', w7, t7) ->
    run os (live b) w
    = ((None, Some e), w7,
       (t1 ++ t2 ++ [Ev (Stat (path.Join [root; nm])) (Some e0)] ++ t4
        ++ [Ev (WriteFile (path.Join [path.Join [root; nm]; "live"]) "1" perm0666) None]
        ++ [Ev (ReadFile (path.Join [path.Join [root; nm]; "dev_name"])) (data, Some e)]
        ++ t7)%list).
Proof.
  intros os b w w1 w2 w3 w4 w5 w6 w7 nm root data t1 t2 t4 t7 e0 e s'
    Hb Hname Hroot Hstat Hsetup Hlive Hdev Hclose.
  unfold live. destruct (banks b) as [| k ks] eqn:E; [done |].
  change (Nat.eqb (length (k :: ks)) 0) with false. cbv iota.
  rewrite run_bind, Hname. cbv beta iota.
  rewrite run_bind, Hroot. cbv beta iota. unfold isNil at 1.
  rewrite run_bind, run_call, Hstat. cbv beta iota. unfold isNil at 1.
  rewrite run_bind, Hsetup. cbv beta iota. unfold isNil at 1.
  rewrite run_bind, run_writeAttr, Hlive. cbv beta iota. unfold isNil at 1.
  rewrite run_bind, run_readAttr, Hdev. cbv beta iota. unfold isNil at 1 2.
  rewrite run_bind, Hclose. cbn [run]. by rewrite !app_nil_r.
Qed.

Lemma X14_witness :
  result (run simfs.os (live Scenario.theBuilder) Cases.plain)
  = (None, Some (PathError "open" "/sys/kernel/config/gpio-sim/gpiosim_test/dev_name" ENOENT))
  /\ final (run simfs.os (live Scenario.theBuilder) Cases.plain) = Cases.plain.
Proof.
  pose proof (X14_unreadable_dev_name_is_closed simfs.os Scenario.theBuilder
    Cases.plain Cases.plain Cases.plain Cases.plain
    (final (run simfs.os (setupConfigfs Scenario.sim0) Cases.plain))
    (final (run simfs.os (setupConfigfs Scenario.sim0 ;;!
                          writeAttr Scenario.cfgp "live" "1") Cases.plain))
    (final (run simfs.os (setupConfigfs Scenario.sim0 ;;!
                          writeAttr Scenario.cfgp "live" "1") Cases.plain))
    Cases.plain
    "gpiosim_test" "/sys/kernel/config/gpio-sim" ""
    [] [Ev (Stat "/sys/kernel/config/gpio-sim") None]
    (trace (run simfs.os (setupConfigfs Scenario.sim0) Cases.plain))
    (trace (run simfs.os (Close Scenario.sim0)
              (final (run simfs.os (setupConfigfs Scenario.sim0 ;;!
                                    writeAttr Scenario.cfgp "live" "1") Cases.plain))))
    (PathError "stat" "/sys/kernel/config/gpio-sim/gpiosim_test" ENOENT)
    (PathError "open" "/sys/kernel/config/gpio-sim/gpiosim_test/dev_name" ENOENT)
    {| Name := "gpiosim_test"; Chips := []; configfsPath := Scenario.cfgp |}) as H.
  rewrite H.
  - split; reflexivity.
  - discriminate.
  - vm_compute; reflexivity.
  - vm_compute; reflexivity.
  - vm_compute; reflexivity.
  - vm_compute; reflexivity.
  - vm_compute; reflexivity.
  - vm_compute; reflexivity.
  - vm_compute; reflexivity.
Defined.

(** X15. When the loop of [live] over the chips ends with an error, one of
    two things has happened, at some chip.  Either the [chip_name] of that
    chip could not be read: then [Close] was run on the sim (with its path
    and the configuration of its chips unchanged), its calls are the last
    calls made, and the error returned is that of the read.  Or the device
    path of the chip was examined with [os.Lstat] and either that failed or
    the path is a symbolic link: then the [Lstat] is the last call made. *)
Theorem X15_how_the_loop_over_the_chips_fails :
  forall (os : OS) (dev : string) (idx : list nat) (s0 : Sim)
         (w w' : world os) (e : Err) (t : list Event),
    run os (liveChips dev idx s0) w = ((None, Some e), w', t) ->
    (exists pre p data s1 s' wa tc,
        t = (pre ++ Ev (ReadFile p) (data, Some e) :: tc)%list
        /\ run os (Close s1) wa = (s', w', tc)
        /\ Name s1 = Name s0
        /\ configfsPath s1 = configfsPath s0
        /\ List.map cfg (Chips s1) = List.map cfg (Chips s0))
    \/ (exists pre p mode err,
          t = (pre ++ [Ev (Lstat p) (mode, err)])%list
          /\ (err = Some e
              \/ (err = None /\ Z.land mode ModeSymlink <> 0
                  /\ exists chip, p = path.Join ["/dev"; chip]
                       /\ e = ErrorString ("A symlink (" ++ p
                                           ++ ") is masking GPIO device " ++ chip)))).
Proof.
  intros os dev idx. induction idx as [| i idx IH]; intros s0 w w' e t H.
  - by simpl in H.
  - cbn [liveChips] in H. rewrite run_bind, run_readAttr in H.
    destruct (handle os (ReadFile _) w) as [[data err] w1].
    destruct err as [x |]; cbn [isNil] in H.
    + rewrite run_bind in H.
      destruct (run os (Close s0) w1) as [[s' w2] tc] eqn:Hc.
      simpl in H. injection H as -> -> <-. left.
      exists [], (path.Join [bankPathOf s0 (Z.of_nat i); "chip_name"]), data, s0, s', w1, tc.
      rewrite app_nil_r. by repeat split.
    + rewrite run_bind, run_call in H.
      destruct (handle os (Lstat _) w1) as [[mode err'] w2].
      destruct err' as [x |]; cbn [isNil] in H.
      * simpl in H. injection H as -> -> <-. right.
        exists [Ev (ReadFile (path.Join [bankPathOf s0 (Z.of_nat i); "chip_name"])) (data, None)],
          (path.Join ["/dev"; strings.TrimSpace data]), mode, (Some e).
        split; [done | by left].
      * destruct (Z.eqb_spec (Z.land mode ModeSymlink) 0) as [E | E]; cbn [negb] in H.
        -- destruct (run os (liveChips dev idx _) w2) as [[r w3] t3] eqn:Hrest.
           simpl in H. injection H as -> -> <-.
           destruct (IH _ _ _ _ _ Hrest) as
             [(pre & p & d & s1 & s' & wa & tc & -> & Hc & Hn & Hp & Hcfg)
             | (pre & p & m & err & -> & Hcase)].
           ++ left.
              exists (Ev (ReadFile (path.Join [bankPathOf s0 (Z.of_nat i); "chip_name"]))
                        (data, None)
                      :: Ev (Lstat (path.Join ["/dev"; strings.TrimSpace data])) (mode, None)
                      :: pre), p, d, s1, s', wa, tc.
              repeat split; try done.
              rewrite Hcfg. cbn [setChip Chips]. by rewrite !cfg_alter.
           ++ right.
              exists (Ev (ReadFile (path.Join [bankPathOf s0 (Z.of_nat i); "chip_name"]))
                        (data, None)
                      :: Ev (Lstat (path.Join ["/dev"; strings.TrimSpace data])) (mode, None)
                      :: pre), p, m, err.
              by split.
        -- simpl in H. injection H as <- -> <-. right.
           exists [Ev (ReadFile (path.Join [bankPathOf s0 (Z.of_nat i); "chip_name"]))
                     (data, None)],
             (path.Join ["/dev"; strings.TrimSpace data]), mode, None.
           split; [done |]. right. repeat split; try done.
           by exists (strings.TrimSpace data).
Qed.

Lemma X15_witness :
  run simfs.os (liveChips "gpio-sim.0" [0%nat; 1%nat] Scenario.sim0) Cases.liveNoChipName
  = ((None, Some (PathError "open"
                    "/sys/kernel/config/gpio-sim/gpiosim_test/bank0/chip_name" ENOENT)),
     Cases.noChipName,
     trace (run simfs.os (liveChips "gpio-sim.0" [0%nat; 1%nat] Scenario.sim0)
              Cases.liveNoChipName))
  /\ exists pre p mode err,
       existsb (isTeardownCall Scenario.cfgp)
         (trace (run simfs.os (liveChips "gpio-sim.0" [0%nat; 1%nat] Scenario.sim0)
                   Cases.liveNoChipName)) = true
       \/ trace (run simfs.os (liveChips "gpio-sim.0" [0%nat; 1%nat] Scenario.sim0)
                   Cases.liveNoChipName)
          = (pre ++ [Ev (Lstat p) (mode, err)])%list.
Proof.
  assert (run simfs.os (liveChips "gpio-sim.0" [0%nat; 1%nat] Scenario.sim0)
            Cases.liveNoChipName
          = ((None, Some (PathError "open"
                            "/sys/kernel/config/gpio-sim/gpiosim_test/bank0/chip_name" ENOENT)),
             Cases.noChipName,
             trace (run simfs.os (liveChips "gpio-sim.0" [0%nat; 1%nat] Scenario.sim0)
                      Cases.liveNoChipName))) as H
    by (vm_compute; reflexivity).
  split; [exact H |].
  destruct (X15_how_the_loop_over_the_chips_fails simfs.os _ _ _ _ _ _ _ H)
    as [_ | (pre & p & mode & err & Ht & _)].
  - exists [], "", 0, None. left. vm_compute; reflexivity.
  - exists pre, p, mode, err. by right.
Defined.
